(** * sensor_ssh.py: the SQM photometer session layer

    A shallow embedding of [python-scripts/ssh/sensor_ssh.py]: the shared
    base class [SQM], its two transports [SQMLE] (network socket) and
    [SQMLU] (serial line), the retrying command/response exchange, the
    collected-lines buffer, teardown and the two device searches.

    Conventions of the embedding.
    - A Python [str] is a list of Unicode code points, [bytes] a list of
      [Byte.byte].
    - The module [configs_ssh] is not part of the sources.  The constants
      taken from it are parameters: the codecs named [utf8] and [hex], the
      flag [DEBUG]; the three delays [long_s], [mid_s], [short_s] are kept
      symbolic.
    - Methods are functions from the session to a result and the session
      left behind; a raised exception leaves the mutations made so far.
    - The environment of a session is the list of outcomes its next reads
      of the transport will have, after which the device is silent (every
      further read times out).  Writes, opens and closes of a connected
      session succeed; the transports [faulty] are the ones whose open
      and send can raise, and with none of them raising they are the
      former ([faulty_without_faults]).
    - List objects live in a store, so that [self.data], its copy
      [self.data[:]] and in-place updates keep their identity.
    - Execution is sequential.  The loop of the listener is run on its
      own, for the number of passes it makes while its flag is set; the
      thread that runs it, [stop_continuous_read] and the command-line
      entry point are not embedded.  The constructors take what the
      ports and hosts do when they are opened as a parameter. *)

From Equations Require Import Equations.
From Stdlib Require Import ZArith NArith QArith Strings.String Strings.Ascii Strings.Byte.
From Stdlib Require Import Decimal DecimalString.
From stdpp Require Import base option list gmap.

#[local] Open Scope Z_scope.
#[local] Set Default Proof Using "Type".

(* ------------------------------------------------------------------ *)
(** * Text, bytes and codecs *)

Definition codepoint := N.
Definition str := list codepoint.
Definition bytes := list byte.

(** A Python string literal. *)
Definition lit (s : string) : str := N_of_ascii <$> list_ascii_of_string s.

(** A Python bytes literal. *)
Definition blit (s : string) : bytes := list_byte_of_string s.

Inductive exn :=
| AssertionError
| UnicodeDecodeError
| UnicodeEncodeError
| LookupError
| IndexError
| BlockingIOError
| TimeoutError
| SerialException
| OtherError (name : string).

Inductive result (A : Type) :=
| Return (a : A)
| Raise (e : exn).
Arguments Return {A} a.
Arguments Raise {A} e.

(** What [x.encode(name)] and [b.decode(name)] do for a codec [name]. *)
Record codec := {
  encode : str -> result bytes;
  decode : bytes -> result str
}.

(** ** UTF-8, strict, as Python's ["utf-8"] codec *)

Definition is_cont (b : N) : bool := ((0x80 <=? b) && (b <=? 0xBF))%N.

(** Allowed range of the byte after a three- or four-byte lead. *)
Definition second_lo (b0 : N) : N :=
  (if b0 =? 0xE0 then 0xA0 else if b0 =? 0xF0 then 0x90 else 0x80)%N.
Definition second_hi (b0 : N) : N :=
  (if b0 =? 0xED then 0x9F else if b0 =? 0xF4 then 0x8F else 0xBF)%N.

Fixpoint utf8_points (bs : list N) : option str :=
  match bs with
  | [] => Some []
  | b0 :: r0 =>
    if (b0 <? 0x80)%N then cons b0 <$> utf8_points r0
    else if ((0xC2 <=? b0) && (b0 <=? 0xDF))%N then
      match r0 with
      | b1 :: r1 =>
        if is_cont b1
        then cons ((b0 - 0xC0) * 64 + (b1 - 0x80))%N <$> utf8_points r1
        else None
      | _ => None
      end
    else if ((0xE0 <=? b0) && (b0 <=? 0xEF))%N then
      match r0 with
      | b1 :: b2 :: r2 =>
        if ((second_lo b0 <=? b1) && (b1 <=? second_hi b0))%N && is_cont b2
        then cons ((b0 - 0xE0) * 4096 + (b1 - 0x80) * 64 + (b2 - 0x80))%N
               <$> utf8_points r2
        else None
      | _ => None
      end
    else if ((0xF0 <=? b0) && (b0 <=? 0xF4))%N then
      match r0 with
      | b1 :: b2 :: b3 :: r3 =>
        if ((second_lo b0 <=? b1) && (b1 <=? second_hi b0))%N
           && is_cont b2 && is_cont b3
        then cons ((b0 - 0xF0) * 262144 + (b1 - 0x80) * 4096
                   + (b2 - 0x80) * 64 + (b3 - 0x80))%N
               <$> utf8_points r3
        else None
      | _ => None
      end
    else None
  end.

Definition byte_of (n : N) : byte := default x00 (Byte.of_N n).

Definition utf8_units (c : codepoint) : option (list N) :=
  (if c <? 0x80 then Some [c]
   else if c <? 0x800 then Some [0xC0 + c / 64; 0x80 + c mod 64]
   else if c <? 0x10000 then
     if (0xD800 <=? c) && (c <=? 0xDFFF) then None
     else Some [0xE0 + c / 4096; 0x80 + (c / 64) mod 64; 0x80 + c mod 64]
   else if c <? 0x110000 then
     Some [0xF0 + c / 262144; 0x80 + (c / 4096) mod 64;
           0x80 + (c / 64) mod 64; 0x80 + c mod 64]
   else None)%N.

Fixpoint utf8_bytes (s : str) : option bytes :=
  match s with
  | [] => Some []
  | c :: s' =>
    match utf8_units c, utf8_bytes s' with
    | Some u, Some r => Some ((byte_of <$> u) ++ r)
    | _, _ => None
    end
  end.

Definition utf_8 : codec := {|
  encode s := match utf8_bytes s with
              | Some b => Return b
              | None => Raise UnicodeEncodeError
              end;
  decode b := match utf8_points (Byte.to_N <$> b) with
              | Some s => Return s
              | None => Raise UnicodeDecodeError
              end
|}.

(** ** [str.strip()] *)

(** [str.isspace] on one code point: the characters Python treats as
    whitespace. *)
Definition isspace (c : codepoint) : bool :=
  (((0x09 <=? c) && (c <=? 0x0D)) || ((0x1C <=? c) && (c <=? 0x20))
   || (c =? 0x85) || (c =? 0xA0) || (c =? 0x1680)
   || ((0x2000 <=? c) && (c <=? 0x200A))
   || (c =? 0x2028) || (c =? 0x2029) || (c =? 0x202F) || (c =? 0x205F)
   || (c =? 0x3000))%N.

Fixpoint lstrip (s : str) : str :=
  match s with
  | [] => []
  | c :: s' => if isspace c then lstrip s' else s
  end.

Definition rstrip (s : str) : str := reverse (lstrip (reverse s)).

Definition strip (s : str) : str := rstrip (lstrip s).

(** No whitespace at either end. *)
Definition trimmed (s : str) : Prop :=
  (forall c, head s = Some c -> isspace c = false) /\
  (forall c, last s = Some c -> isspace c = false).

Definition newline : codepoint := 10%N.

(* ------------------------------------------------------------------ *)
(** * Sessions *)

(** The three delays of [configs_ssh], by name. *)
Inductive delay := long_s | mid_s | short_s.

(** What one read of the transport will find: an error raised by the
    read, or a payload (possibly empty). *)
Inductive incoming :=
| Fails (e : exn)
| Gives (b : bytes).

(** Calls that reach outside the session, in the order made. *)
Inductive op :=
| Sleep (d : delay)
| SockStream
| SockSetTimeout
| SockConnect (a : str)
| SockSetLinger
| SockRecv
| SockSend (b : bytes)
| SockClose
| SerialOpen (a : str)
| SerialReadline
| SerialWrite (b : bytes)
| SerialClose
| PrintClearing
| PrintCleared (m : option bytes)
| PrintErrReading (m : option bytes)
| PrintSensorInfo (m : str)
| PrintSending (s : str).

Definition loc := positive.

Record session := Session {
  addr : str;                       (* self.addr *)
  store : gmap loc (list str);      (* the list objects *)
  data : loc;                       (* self.data *)
  wire : list incoming;             (* what the next reads will find *)
  log : list op                     (* calls made so far, oldest first *)
}.

(** The lines currently held by [self.data]. *)
Definition buffer (st : session) : list str := default [] (store st !! data st).

(** [self.data] refers to a list object. *)
Definition wf (st : session) : Prop := is_Some (store st !! data st).

Definition M (A : Type) : Type := session -> result A * session.

#[export] Instance M_ret : MRet M := fun A a st => (Return a, st).
#[export] Instance M_bind : MBind M := fun A B f m st =>
  match m st with
  | (Return a, st') => f a st'
  | (Raise e, st') => (Raise e, st')
  end.

Definition raise {A} (e : exn) : M A := fun st => (Raise e, st).

(** [try: body except: handler], the handler seeing the exception so that
    a bare [raise] can raise it again. *)
Definition try_except {A} (body : M A) (handler : exn -> M A) : M A := fun st =>
  match body st with
  | (Return a, st') => (Return a, st')
  | (Raise e, st') => handler e st'
  end.

(** A pure computation that may raise. *)
Definition lift {A} (r : result A) : M A := fun st => (r, st).

(** The session after the calls [ops]. *)
Definition logged (ops : list op) (st : session) : session :=
  Session (addr st) (store st) (data st) (wire st) (log st ++ ops).

Definition call (o : op) : M unit := fun st => (Return tt, logged [o] st).

Definition sleep (d : delay) : M unit := call (Sleep d).

(** One read of the transport handle, [o] naming the call.  Past the
    scripted outcomes the device is silent and the read has the outcome
    [silence] (a socket times out, a serial line returns nothing). *)
Definition read_handle (o : op) (silence : incoming) : M bytes := fun st =>
  let next := match wire st with [] => silence | i :: _ => i end in
  let st' := Session (addr st) (store st) (data st) (tail (wire st)) (log st ++ [o]) in
  match next with
  | Fails e => (Raise e, st')
  | Gives b => (Return b, st')
  end.

(** [self.data.append(x)], in place. *)
Definition data_append (x : str) : M unit := fun st =>
  (Return tt,
   Session (addr st) (<[data st := buffer st ++ [x]]> (store st)) (data st)
           (wire st) (log st)).

(** [assert x != None]. *)
Definition assert_not_none {A} (x : option A) : M A :=
  match x with
  | Some a => mret a
  | None => raise AssertionError
  end.

(** Truth value of a [bytes | None]. *)
Definition truthy (r : option bytes) : bool :=
  match r with
  | Some (_ :: _) => true
  | _ => false
  end.

(** [self.data = []]: [self.data] is bound to a new, empty list object;
    the object it was bound to stays as it is. *)
Definition data_new : M unit := fun st =>
  let d := fresh (dom (store st)) in
  (Return tt, Session (addr st) (<[d := []]> (store st)) d (wire st) (log st)).

(** [self.addr = a]. *)
Definition set_addr (a : str) : M unit := fun st =>
  (Return tt, Session a (store st) (data st) (wire st) (log st)).

(** The calls [ops] of a callee, made in this session. *)
Definition calls_made (ops : list op) : M unit := fun st => (Return tt, logged ops st).

(** An object before its constructor has run, connected to a device that
    will send [w]. *)
Definition unbuilt (w : list incoming) : session := Session [] ∅ 1%positive w [].

(** The constants of [configs_ssh] the methods read. *)
Class configs_ssh := {
  DEBUG : bool;
  utf8 : codec;
  hex : codec
}.

(* ------------------------------------------------------------------ *)
(** * The environment of the searches *)

(** One pass of the reply loop of the network search: what [recvfrom]
    finds, and what [time.time()] reads if the handler consults it in
    this pass. *)
Inductive arrival :=
| Nothing (e : exn)
| Datagram (buf : bytes) (host : str) (port : Z).

Record poll := Poll {
  found : arrival;
  clock : Q
}.

(** Lines the searches print. *)
Inductive line :=
| LookingForReplies
| ReceivedFrom (host : str) (port : Z) (mac : str)
| DeviceNotFound.

(** How the reply loop stands when the polls of the script are used up:
    it has left the loop, or it is still polling. *)
Inductive loop_end :=
| Broke (addr : option (str * Z)) (printed : list line)
| StillPolling (addr : option (str * Z)) (printed : list line).

(** How a search stands: ended with a result, or still polling. *)
Inductive search_end :=
| Finished (r : result str) (printed : list line)
| Unfinished.

(** What a serial port does when the search probes it: the open raises,
    or the port opens and [readline] returns a line (empty when the port
    stays silent for the second of the timeout). *)
Inductive port_reply :=
| CannotOpen (e : exn)
| Answers (reply : bytes).

(** [str(num)] for a natural number. *)
Definition str_of_nat (num : nat) : str :=
  lit (NilEmpty.string_of_uint (Nat.to_uint num)).

(* ------------------------------------------------------------------ *)
(** * class SQM: the shared methods *)

Module SQM.

(** The four methods the base class leaves to the transports. *)
Class transport := {
  start_connection : M unit;
  _close_connection : M unit;
  _read_buffer : M (option bytes);
  _send_command : str -> M unit
}.

Section methods.
Context {cfg : configs_ssh} {T : transport}.

Definition _reset_device : M unit :=
  _close_connection ;;
  sleep short_s ;;
  start_connection.

Definition _clear_buffer : M unit :=
  call PrintClearing ;;
  m ← _read_buffer ;
  call (PrintCleared m).

Equations? send_and_receive (s : str) (tries : Z) : M str by wf (Z.to_nat tries) lt :=
send_and_receive s tries :=
  _send_command s ;;
  sleep long_s ;;
  byte_m ← _read_buffer ;
  try_except
    (m ← assert_not_none byte_m ;
     lift (decode utf8 m))
    (fun e =>
       match Z_le_gt_dec tries 0 with
       | left _ =>
         call (PrintErrReading byte_m) ;;
         (if DEBUG then raise e else mret [])
       | right _ =>
         sleep mid_s ;;
         _reset_device ;;
         sleep mid_s ;;
         m ← send_and_receive s (tries - 1) ;
         call (PrintSensorInfo m) ;;
         mret m
       end).
Proof. lia. Qed.

(** [d = self.data[:]] makes a new list object; [self.data.clear()]
    empties the old one in place; the new object is returned. *)
Definition _return_collected : M loc := fun st =>
  let d := fresh (dom (store st)) in
  let copied := <[d := buffer st]> (store st) in
  let cleared := <[data st := []]> copied in
  (Return d, Session (addr st) cleared (data st) (wire st) (log st)).

Definition rpi_to_client (s : str) : M unit :=
  call (PrintSending s) ;;
  _send_command s.

Definition client_to_rpi : M loc :=
  m_arr ← _return_collected ;
  mret m_arr.

(** The assignment [self.data = []] of [start_continuous_read].  The
    flag [self.live] and the thread it starts are the run of [_listen]
    that follows. *)
Definition start_continuous_read : M unit := data_new.

(** The loop of [_listen], run on its own: [passes] is the number of
    times the loop finds [self.live] true before [stop_continuous_read]
    has cleared it. *)
Fixpoint _listen (passes : nat) : M unit :=
  match passes with
  | O => mret tt
  | S n =>
    sleep short_s ;;
    _read_buffer ;;
    _listen n
  end.

End methods.
End SQM.

(** [self.addr]. *)
Definition self_addr : M str := fun st => (Return (addr st), st).

(** Keeps the equation of a scrutinee at hand. *)
Definition inspect {A} (a : A) : {b : A | a = b} := exist _ a eq_refl.

(* ------------------------------------------------------------------ *)
(** * class SQMLE(SQM): the network transport *)

Module SQMLE.
Section methods.
Context {cfg : configs_ssh}.

Definition start_connection : M unit :=
  call SockStream ;;
  call SockSetTimeout ;;
  a ← self_addr ;
  call (SockConnect a).

(** [self.s.recv(SOCK_BUF)]: a silent peer makes the read time out. *)
Definition recv : M bytes := read_handle SockRecv (Fails TimeoutError).

Definition _read_buffer : M (option bytes) := fun st =>
  match recv st with
  | (Raise _, st1) => (Return None, st1)          (* m is still None *)
  | (Return m, st1) =>
    match decode utf8 m with
    | Raise _ => (Return (Some m), st1)           (* except: pass *)
    | Return t =>
      if decide (t = []) then (Return None, st1)  (* bare return *)
      else (data_append (strip t) ;; mret (Some m)) st1
    end
  end.

(** [while r: r = self._read_buffer(); request += str(r)]; the local
    [request] is dropped when the method returns. *)
Equations? until_silent (st : session) : result unit * session
  by wf (length (wire st)) lt :=
until_silent st with inspect (_read_buffer st) := {
  | exist _ (Return r, st') _ with inspect (truthy r) := {
    | exist _ true _ => until_silent st'
    | exist _ false _ => (Return tt, st') }
  | exist _ (Raise e, st') _ => (Raise e, st') }.
Proof.
  revert e e0. clear until_silent.
  unfold _read_buffer, recv, read_handle.
  destruct (wire st) as [|[e|b] w]; cbn.
  - intros [= <- <-]. discriminate.
  - intros [= <- <-]. discriminate.
  - destruct (decode utf8 b) as [t|e].
    + destruct (decide (t = [])); intros [= <- <-]; cbn; [discriminate | lia].
    + intros [= <- <-]; cbn; lia.
Qed.

Definition _close_connection : M unit :=
  call SockSetLinger ;;
  until_silent ;;
  call SockClose.

Definition _send_command (s : str) : M unit :=
  b ← lift (encode utf8 s) ;
  call (SockSend b).

#[export] Instance self : SQM.transport := {|
  SQM.start_connection := start_connection;
  SQM._close_connection := _close_connection;
  SQM._read_buffer := _read_buffer;
  SQM._send_command := _send_command
|}.

(** [time.time() - starttime > 3]. *)
Definition window_over (starttime now : Q) : bool :=
  negb (Qle_bool (now - starttime) 3).

(** [buf.decode(hex)[3] == "f7"]: the item at index 3 is a string of one
    character. *)
Definition marker_test (buf : bytes) : result bool :=
  match decode hex buf with
  | Raise e => Raise e
  | Return t =>
    match t !! 3%nat with
    | None => Raise IndexError
    | Some c => Return (bool_decide ([c] = lit "f7"))
    end
  end.

(** [buf.decode(hex)[24:30]]. *)
Definition mac_of (buf : bytes) : str :=
  match decode hex buf with
  | Return t => take 6 (drop 24 t)
  | Raise _ => []
  end.

(** The [while True] loop of [_search], one pass for each poll of the
    script.  [addr] is [None] for the initial [[None, None]]. *)
Fixpoint reply_loop (starttime : Q) (script : list poll)
    (addr : option (str * Z)) (printed : list line) : loop_end :=
  match script with
  | [] => StillPolling addr printed
  | p :: rest =>
    match found p with
    | Nothing _ =>
      if window_over starttime (clock p) then Broke addr printed
      else reply_loop starttime rest addr printed
    | Datagram buf host port =>
      let addr := Some (host, port) in
      match marker_test buf with
      | Return true =>
        reply_loop starttime rest addr
          (printed ++ [ReceivedFrom host port (mac_of buf)])
      | Return false => reply_loop starttime rest addr printed
      | Raise _ =>
        if window_over starttime (clock p) then Broke addr printed
        else reply_loop starttime rest addr printed
      end
    end
  end.

(** [starttime] is the clock read after the probe is sent. *)
Definition _search (starttime : Q) (script : list poll) : search_end :=
  match encode hex (lit "000000f6") with
  | Raise e => Finished (Raise e) []
  | Return _ =>
    match reply_loop starttime script None [LookingForReplies] with
    | StillPolling _ _ => Unfinished
    | Broke None printed => Finished (Raise AssertionError) (printed ++ [DeviceNotFound])
    | Broke (Some (host, _)) printed => Finished (Return host) printed
    end
  end.

(** [start_connection] where [reach] tells the hosts that refuse or do
    not answer the connection: [self.s.connect] raises for them. *)
Definition start_connection_via (reach : str -> option exn) : M unit :=
  call SockStream ;;
  call SockSetTimeout ;;
  a ← self_addr ;
  call (SockConnect a) ;;
  match reach a with
  | Some e => raise e
  | None => mret tt
  end.

(** [_send_command] where [sends] tells the payloads whose [self.s.send]
    raises, on a connection the peer has dropped say. *)
Definition _send_command_via (sends : bytes -> option exn) (s : str) : M unit :=
  b ← lift (encode utf8 s) ;
  call (SockSend b) ;;
  match sends b with
  | Some e => raise e
  | None => mret tt
  end.

(** The network transport with a connect and a send that can raise. *)
Definition self_via (reach : str -> option exn) (sends : bytes -> option exn)
    : SQM.transport := {|
  SQM.start_connection := start_connection_via reach;
  SQM._close_connection := _close_connection;
  SQM._read_buffer := _read_buffer;
  SQM._send_command := _send_command_via sends
|}.

(** The constructor, [device_addr] being the address of [configs_ssh];
    [None] when the search it falls back on is still polling at the end
    of the script.  What it prints between the steps is left out. *)
Definition __init__ (device_addr : str) (reach : str -> option exn)
    (starttime : Q) (script : list poll) (st : session)
    : option (result unit * session) :=
  match (data_new ;; set_addr device_addr ;; start_connection_via reach) st with
  | (Return _, st1) => Some (SQM._clear_buffer (T := self) st1)
  | (Raise _, st1) =>
    match _search starttime script with
    | Unfinished => None
    | Finished (Raise e) _ => Some (Raise e, st1)
    | Finished (Return found_addr) _ =>
      Some ((set_addr found_addr ;;
             start_connection_via reach ;;
             SQM._clear_buffer (T := self)) st1)
    end
  end.

End methods.
End SQMLE.

(* ------------------------------------------------------------------ *)
(** * class SQMLU(SQM): the serial transport *)

Module SQMLU.
Section methods.
Context {cfg : configs_ssh}.

Definition start_connection : M unit :=
  a ← self_addr ;
  call (SerialOpen a).

(** [self.s.readline()]: a silent line gives the empty bytes when the
    read timeout passes. *)
Definition readline : M bytes := read_handle SerialReadline (Gives []).

Definition _read_buffer : M (option bytes) := fun st =>
  match readline st with
  | (Raise _, st1) => (Return None, st1)          (* m is still None *)
  | (Return m, st1) =>
    match decode utf8 m with
    | Raise _ => (Return (Some m), st1)           (* except: pass *)
    | Return t =>
      if decide (t = []) then (Return None, st1)  (* bare return *)
      else (data_append (strip t) ;; mret (Some m)) st1
    end
  end.

Equations? until_silent (st : session) : result unit * session
  by wf (length (wire st)) lt :=
until_silent st with inspect (_read_buffer st) := {
  | exist _ (Return r, st') _ with inspect (truthy r) := {
    | exist _ true _ => until_silent st'
    | exist _ false _ => (Return tt, st') }
  | exist _ (Raise e, st') _ => (Raise e, st') }.
Proof.
  revert e e0. clear until_silent.
  unfold _read_buffer, readline, read_handle.
  destruct (wire st) as [|[e|b] w]; cbn.
  - destruct (decode utf8 []) as [t|e].
    + destruct (decide (t = [])); intros [= <- <-]; discriminate.
    + intros [= <- <-]; discriminate.
  - intros [= <- <-]. discriminate.
  - destruct (decode utf8 b) as [t|e].
    + destruct (decide (t = [])); intros [= <- <-]; cbn; [discriminate | lia].
    + intros [= <- <-]; cbn; lia.
Qed.

Definition _close_connection : M unit :=
  until_silent ;;
  call SerialClose.

Definition _send_command (s : str) : M unit :=
  b ← lift (encode utf8 s) ;
  call (SerialWrite b).

#[export] Instance self : SQM.transport := {|
  SQM.start_connection := start_connection;
  SQM._close_connection := _close_connection;
  SQM._read_buffer := _read_buffer;
  SQM._send_command := _send_command
|}.

(** The override of [SQM.send_and_receive]. *)
Equations? send_and_receive (s : str) (tries : Z) : M str by wf (Z.to_nat tries) lt :=
send_and_receive s tries :=
  _send_command s ;;
  sleep long_s ;;
  byte_m ← _read_buffer ;
  try_except
    (m ← assert_not_none byte_m ;
     lift (decode utf8 m))
    (fun e =>
       match Z_le_gt_dec tries 0 with
       | left _ =>
         call (PrintErrReading byte_m) ;;
         (if DEBUG then raise e else mret [])
       | right _ =>
         sleep mid_s ;;
         SQM._reset_device ;;
         sleep mid_s ;;
         m ← send_and_receive s (tries - 1) ;
         call (PrintSensorInfo m) ;;
         mret m
       end).
Proof. lia. Qed.

Definition ports_unix : list str :=
  (fun num => lit "/dev/ttyUSB" ++ str_of_nat num) <$> seq 0 100.
Definition ports_win : list str :=
  (fun num => lit "COM" ++ str_of_nat num) <$> seq 0 100.

(** The [for port in ports] loop of [_search]: [Return None] when the
    loop ends without a [break]; the calls made come second. *)
Fixpoint probe_ports (env : str -> port_reply) (ports : list str)
    (calls : list op) : result (option str) * list op :=
  match ports with
  | [] => (Return None, calls)
  | port :: rest =>
    let calls := calls ++ [SerialOpen port] in
    match env port with
    | CannotOpen e => (Raise e, calls)
    | Answers reply =>
      match encode utf8 (lit "ix") with
      | Raise e => (Raise e, calls)
      | Return ix =>
        let calls := calls ++ [SerialWrite ix; SerialReadline] in
        match decode utf8 reply with
        | Raise e => (Raise e, calls)
        | Return [] => (Raise IndexError, calls)
        | Return (c :: _) =>
          if bool_decide ([c] = lit "i") then (Return (Some port), calls)
          else probe_ports env rest calls
        end
      end
    end
  end.

(** [platform] is [sys.platform]. *)
Definition candidate_ports (platform : str) : list str :=
  if bool_decide (platform = lit "linux2") then ports_unix
  else if bool_decide (platform = lit "win32") then ports_win
  else [].

Definition _search (platform : str) (env : str -> port_reply)
    : result str * list op :=
  match probe_ports env (candidate_ports platform) [] with
  | (Raise e, calls) => (Raise e, calls)
  | (Return None, calls) => (Raise AssertionError, calls)
  | (Return (Some used_port), calls) => (Return used_port, calls)
  end.

(** [start_connection] where the ports behave as [env]:
    [serial.Serial(self.addr, ...)] raises when the port cannot be
    opened. *)
Definition start_connection_in (env : str -> port_reply) : M unit :=
  a ← self_addr ;
  call (SerialOpen a) ;;
  match env a with
  | CannotOpen e => raise e
  | Answers _ => mret tt
  end.

(** [_send_command] where [sends] tells the payloads whose
    [self.s.write] raises. *)
Definition _send_command_in (sends : bytes -> option exn) (s : str) : M unit :=
  b ← lift (encode utf8 s) ;
  call (SerialWrite b) ;;
  match sends b with
  | Some e => raise e
  | None => mret tt
  end.

(** The serial transport with an open and a write that can raise. *)
Definition self_in (env : str -> port_reply) (sends : bytes -> option exn)
    : SQM.transport := {|
  SQM.start_connection := start_connection_in env;
  SQM._close_connection := _close_connection;
  SQM._read_buffer := _read_buffer;
  SQM._send_command := _send_command_in sends
|}.

(** The constructor, [device_addr] being the address of [configs_ssh];
    what it prints between the steps is left out. *)
Definition __init__ (device_addr platform : str) (env : str -> port_reply) : M unit :=
  data_new ;;
  try_except
    (set_addr device_addr ;;
     start_connection_in env)
    (fun _ =>
       match _search platform env with
       | (Raise e, calls) => calls_made calls ;; raise e
       | (Return found_addr, calls) =>
         calls_made calls ;;
         set_addr found_addr ;;
         start_connection_in env
       end) ;;
  SQM._clear_buffer (T := self).

End methods.
End SQMLU.

(* ------------------------------------------------------------------ *)
(** * The two transports side by side *)

Inductive kind := LE | LU.

Definition self {cfg : configs_ssh} (k : kind) : SQM.transport :=
  match k with
  | LE => SQMLE.self
  | LU => SQMLU.self
  end.

Definition read_op (k : kind) : op :=
  match k with LE => SockRecv | LU => SerialReadline end.

Definition write_op (k : kind) (b : bytes) : op :=
  match k with LE => SockSend b | LU => SerialWrite b end.

Definition close_op (k : kind) : op :=
  match k with LE => SockClose | LU => SerialClose end.

Definition open_ops (k : kind) (a : str) : list op :=
  match k with
  | LE => [SockStream; SockSetTimeout; SockConnect a]
  | LU => [SerialOpen a]
  end.

(** What teardown does before its reads. *)
Definition linger_ops (k : kind) : list op :=
  match k with LE => [SockSetLinger] | LU => [] end.

Definition silence (k : kind) : incoming :=
  match k with LE => Fails TimeoutError | LU => Gives [] end.

(** What the next read finds on the wire [w]. *)
Definition next_in (k : kind) (w : list incoming) : incoming :=
  match w with [] => silence k | i :: _ => i end.

Definition is_open (o : op) : bool :=
  match o with SockConnect _ | SerialOpen _ => true | _ => false end.
Definition is_close (o : op) : bool :=
  match o with SockClose | SerialClose => true | _ => false end.
Definition is_read (o : op) : bool :=
  match o with SockRecv | SerialReadline => true | _ => false end.
Definition is_sleep (d : delay) (o : op) : bool :=
  match o, d with
  | Sleep long_s, long_s | Sleep mid_s, mid_s | Sleep short_s, short_s => true
  | _, _ => false
  end.

Definition count (p : op -> bool) (l : list op) : nat := length (List.filter p l).

(* ------------------------------------------------------------------ *)
(** * Notions used in the statements *)

Section notions.
Context {cfg : configs_ssh}.

(** The value [_read_buffer] returns when the read finds [i]. *)
Definition read_value (i : incoming) : option bytes :=
  match i with
  | Fails _ => None
  | Gives b =>
    match decode utf8 b with
    | Raise _ => Some b
    | Return t => if decide (t = []) then None else Some b
    end
  end.

(** The decoded text of a read that finds a decodable, non-empty
    payload. *)
Definition payload_text (i : incoming) : option str :=
  match i with
  | Fails _ => None
  | Gives b =>
    match decode utf8 b with
    | Raise _ => None
    | Return t => if decide (t = []) then None else Some t
    end
  end.

(** The line [_read_buffer] appends to [self.data] when the read finds
    [i]. *)
Definition stored_line (i : incoming) : option str := strip <$> payload_text i.

(** The error the sanity check of [send_and_receive] meets after a read
    that found [i] without a usable payload. *)
Definition attempt_error (i : incoming) : exn :=
  match i with
  | Fails _ => AssertionError
  | Gives b =>
    match decode utf8 b with
    | Raise e => e
    | Return _ => AssertionError
    end
  end.

(** The session after [_read_buffer] found [i]. *)
Definition absorb (k : kind) (i : incoming) (st : session) : session :=
  Session (addr st)
          (match stored_line i with
           | Some l => <[data st := buffer st ++ [l]]> (store st)
           | None => store st
           end)
          (data st) (tail (wire st)) (log st ++ [read_op k]).

(** The reads teardown makes on the wire [w]: up to and including the
    first one that returns nothing. *)
Fixpoint teardown_reads (k : kind) (w : list incoming) : list incoming :=
  match w with
  | [] => [silence k]
  | i :: w' => if truthy (read_value i) then i :: teardown_reads k w' else [i]
  end.

(** The wire teardown leaves. *)
Fixpoint teardown_rest (w : list incoming) : list incoming :=
  match w with
  | [] => []
  | i :: w' => if truthy (read_value i) then teardown_rest w' else w'
  end.

(** The session after the reads of teardown, by recursion on its wire. *)
Fixpoint hear_out (k : kind) (w : list incoming) (st : session) : session :=
  match w with
  | [] => absorb k (silence k) st
  | i :: w' =>
    if truthy (read_value i) then hear_out k w' (absorb k i st) else absorb k i st
  end.

Definition until_silent (k : kind) : M unit :=
  match k with
  | LE => SQMLE.until_silent
  | LU => SQMLU.until_silent
  end.

(** The session after the send, the settle delay and the read of one
    attempt, [b] being the encoded command. *)
Definition attempt (k : kind) (b : bytes) (st : session) : session :=
  absorb k (next_in k (wire st)) (logged [write_op k b; Sleep long_s] st).

(** The session after [_reset_device]. *)
Definition reset (k : kind) (st : session) : session :=
  logged (Sleep short_s :: open_ops k (addr st))
    (logged [close_op k] (hear_out k (wire st) (logged (linger_ops k) st))).

(** The session in which the next attempt starts after a failed one. *)
Definition again (k : kind) (b : bytes) (st : session) : session :=
  logged [Sleep mid_s] (reset k (logged [Sleep mid_s] (attempt k b st))).

(** The wire at the start of attempt [j], the earlier ones having
    failed: each failed attempt takes one read, and the teardown of the
    reconnect that follows takes its own. *)
Fixpoint attempt_wire (j : nat) (w : list incoming) : list incoming :=
  match j with
  | O => w
  | S j' => attempt_wire j' (teardown_rest (tail w))
  end.

(** The method a call [d.send_and_receive(s, tries)] runs on an object
    of either class: [SQMLE] inherits it, [SQMLU] overrides it. *)
Definition send_and_receive (k : kind) : str -> Z -> M str :=
  match k with
  | LE => SQM.send_and_receive (T := SQMLE.self)
  | LU => SQMLU.send_and_receive
  end.

(** The session [st] with [i] put in front of its wire. *)
Definition finding (i : incoming) (st : session) : session :=
  Session (addr st) (store st) (data st) (i :: wire st) (log st).

(** The content of the list object a drain returned. *)
Definition lines_of (d : loc) (st : session) : option (list str) := store st !! d.

(** Every line of the buffer is trimmed. *)
Definition clean (st : session) : Prop := Forall trimmed (buffer st).

(** The pass of the reply loop raises: nothing was received, or the
    marker test of the datagram raised. *)
Definition raises (p : poll) : bool :=
  match found p with
  | Nothing _ => true
  | Datagram buf _ _ =>
    match SQMLE.marker_test buf with
    | Raise _ => true
    | Return _ => false
    end
  end.

(** The pass leaves the loop: it raises with the window over. *)
Definition ends_loop (starttime : Q) (p : poll) : bool :=
  raises p && SQMLE.window_over starttime (clock p).

Definition sender (p : poll) : option str :=
  match found p with
  | Nothing _ => None
  | Datagram _ host _ => Some host
  end.

(** The source address of the last datagram among the polls. *)
Definition last_sender (ps : list poll) : option str := last (omap sender ps).

(** [addr] after the passes [ps]. *)
Definition remember (addr : option (str * Z)) (ps : list poll) : option (str * Z) :=
  foldl (fun a p => match found p with
                    | Nothing _ => a
                    | Datagram _ host port => Some (host, port)
                    end) addr ps.

(** What the test [readline().decode(utf8)[0] == "i"] comes to on a
    port: it raises when the port cannot be opened, when the reply does
    not decode and when the reply is empty. *)
Definition verdict (r : port_reply) : result bool :=
  match r with
  | CannotOpen e => Raise e
  | Answers reply =>
    match decode utf8 reply with
    | Raise e => Raise e
    | Return [] => Raise IndexError
    | Return (c :: _) => Return (bool_decide ([c] = lit "i"))
    end
  end.

(** The ports the calls tried to open. *)
Definition opened (calls : list op) : list str :=
  omap (fun o => match o with SerialOpen port => Some port | _ => None end) calls.

End notions.

(* ------------------------------------------------------------------ *)
(** * Sample configurations, sessions and environments *)

(** [configs_ssh] with UTF-8 for both codecs. *)
Definition with_utf8 (debug : bool) : configs_ssh :=
  {| DEBUG := debug; utf8 := utf_8; hex := utf_8 |}.

(** A connected session with the lines [ls] in its buffer and [w] on its
    wire. *)
Definition session_on (ls : list str) (w : list incoming) : session :=
  Session (lit "10.0.0.5") {[ 1%positive := ls ]} 1%positive w [].

(** A reading with its line end. *)
Definition reading : bytes := blit "r, 06.70m" ++ [x0d; x0a].
Definition reading_text : str := lit "r, 06.70m" ++ [13%N; 10%N].

(** Two devices answer the probe within the window, neither with the
    marker; the pass that ends the loop comes after four seconds. *)
Definition two_replies : list poll :=
  [ Poll (Datagram (blit "printer at your service") (lit "10.0.0.7") 30718) 1;
    Poll (Nothing BlockingIOError) 2;
    Poll (Datagram (blit "camera at your service") (lit "10.0.0.9") 30718) (5 # 2);
    Poll (Nothing BlockingIOError) 4 ].

(** Only the third candidate answers with the marker; the two before it
    answer with something else. *)
Definition third_port (port : str) : port_reply :=
  if bool_decide (port = lit "COM2") then Answers (blit "iXYZ")
  else Answers (blit "x").

(** The first candidate cannot be opened, the second answers with the
    marker. *)
Definition second_port (port : str) : port_reply :=
  if bool_decide (port = lit "COM1") then Answers (blit "iXYZ")
  else CannotOpen SerialException.

(* ------------------------------------------------------------------ *)
(** * Further notions *)

Definition is_write (o : op) : bool :=
  match o with SockSend _ | SerialWrite _ => true | _ => false end.

(** The ports that [reach] refuses cannot be opened. *)
Definition ports_of (reach : str -> option exn) (a : str) : port_reply :=
  match reach a with
  | Some e => CannotOpen e
  | None => Answers []
  end.

(** Either transport with an open and a send that can raise: [reach]
    tells the addresses whose open raises, [sends] the payloads whose
    send raises. *)
Definition faulty {cfg : configs_ssh} (k : kind) (reach : str -> option exn)
    (sends : bytes -> option exn) : SQM.transport :=
  match k with
  | LE => SQMLE.self_via reach sends
  | LU => SQMLU.self_in (ports_of reach) sends
  end.

(** What a call that can raise comes to. *)
Definition outcome (fault : option exn) : result unit :=
  match fault with
  | Some e => Raise e
  | None => Return tt
  end.

(** Every host refuses the connection. *)
Definition unreachable (a : str) : option exn := Some TimeoutError.

(** Every send goes through. *)
Definition sendable (b : bytes) : option exn := None.

(** What the first [n] reads find on the wire [w]. *)
Fixpoint overheard (k : kind) (n : nat) (w : list incoming) : list incoming :=
  match n with
  | O => []
  | S n' => next_in k w :: overheard k n' (tail w)
  end.

(** The calls of [n] passes of the listener. *)
Fixpoint listen_calls (k : kind) (n : nat) : list op :=
  match n with
  | O => []
  | S n' => Sleep short_s :: read_op k :: listen_calls k n'
  end.

(** What a method keeps when every logged call and every read keeps it. *)
Definition kept_by_reads {cfg : configs_ssh} (k : kind) (P : session -> Prop) : Prop :=
  (forall ops st, P st -> P (logged ops st))
  /\ (forall i st, P st -> P (absorb k i st)).

(** The number of times [port] occurs among the opened ports. *)
Definition times_opened (port : str) (calls : list op) : nat :=
  length (List.filter (fun q => bool_decide (q = port)) (opened calls)).

(** The ports answer nothing but [port], which answers with the marker;
    the configured address cannot be opened. *)
Definition only_port (port : str) (q : str) : port_reply :=
  if bool_decide (q = port) then Answers (blit "iXYZ")
  else if bool_decide (q = lit "/dev/ttyACM0") then CannotOpen SerialException
  else Answers (blit "?").

(** Every host refuses the connection but [host]. *)
Definition only_host (host : str) (a : str) : option exn :=
  if bool_decide (a = host) then None else Some TimeoutError.

(* ------------------------------------------------------------------ *)
(** * Codecs and strip on samples *)

Example utf8_ascii : decode utf_8 (blit "r, 06.70m") = Return (lit "r, 06.70m").
Proof. reflexivity. Qed.

Example utf8_two_bytes : decode utf_8 [xc3; xa9] = Return [0xE9%N].
Proof. reflexivity. Qed.

Example utf8_overlong : decode utf_8 [xc0; x80] = Raise UnicodeDecodeError.
Proof. reflexivity. Qed.

Example utf8_there_and_back :
  encode utf_8 [0x20AC%N; 0x1F600%N] = Return [xe2; x82; xac; xf0; x9f; x98; x80]
  /\ decode utf_8 [xe2; x82; xac; xf0; x9f; x98; x80] = Return [0x20AC%N; 0x1F600%N].
Proof. split; reflexivity. Qed.

Example strip_line : strip (lit "  r,1 2 ") = lit "r,1 2".
Proof. reflexivity. Qed.

(* ------------------------------------------------------------------ *)
(** * What one read does *)

Section reads.
Context {cfg : configs_ssh}.

Lemma read_buffer_eq k st :
  SQM._read_buffer (transport := self k) st
  = (Return (read_value (next_in k (wire st))), absorb k (next_in k (wire st)) st).
Proof.
  destruct k; cbn; unfold SQMLE._read_buffer, SQMLE.recv, SQMLU._read_buffer,
    SQMLU.readline, read_handle, absorb, stored_line, payload_text, read_value;
    destruct (wire st) as [|[e|b] w]; cbn; try reflexivity;
    try (destruct (decode utf8 _) as [t|e]; cbn; [destruct (decide (t = [])) |]; reflexivity).
Qed.

End reads.

(* ------------------------------------------------------------------ *)
(** * Teardown *)

Section teardown.
Context {cfg : configs_ssh}.

Lemma SQMLE_until_silent_unfold st :
  SQMLE.until_silent st =
  match SQMLE._read_buffer st with
  | (Return r, st') => if truthy r then SQMLE.until_silent st' else (Return tt, st')
  | (Raise e, st') => (Raise e, st')
  end.
Proof.
  funelim (SQMLE.until_silent st).
  all: try match goal with E : SQMLE._read_buffer _ = _ |- _ => rewrite E end.
  all: try match goal with E : truthy _ = _ |- _ => rewrite E end.
  all: reflexivity.
Qed.

Lemma SQMLU_until_silent_unfold st :
  SQMLU.until_silent st =
  match SQMLU._read_buffer st with
  | (Return r, st') => if truthy r then SQMLU.until_silent st' else (Return tt, st')
  | (Raise e, st') => (Raise e, st')
  end.
Proof.
  funelim (SQMLU.until_silent st).
  all: try match goal with E : SQMLU._read_buffer _ = _ |- _ => rewrite E end.
  all: try match goal with E : truthy _ = _ |- _ => rewrite E end.
  all: reflexivity.
Qed.

Lemma until_silent_unfold k st :
  until_silent k st =
  match SQM._read_buffer (transport := self k) st with
  | (Return r, st') => if truthy r then until_silent k st' else (Return tt, st')
  | (Raise e, st') => (Raise e, st')
  end.
Proof.
  destruct k; [apply SQMLE_until_silent_unfold | apply SQMLU_until_silent_unfold].
Qed.

Lemma silence_falsy k : truthy (read_value (silence k)) = false.
Proof.
  destruct k; cbn; [reflexivity |].
  destruct (decode utf8 []); [destruct (decide _) |]; reflexivity.
Qed.

Lemma until_silent_eq k w st :
  wire st = w -> until_silent k st = (Return tt, hear_out k w st).
Proof.
  revert st; induction w as [|i w IH]; intros st E;
    rewrite until_silent_unfold, read_buffer_eq, E; cbn.
  - rewrite silence_falsy. reflexivity.
  - destruct (truthy (read_value i)); [|reflexivity].
    apply IH. cbn. rewrite E. reflexivity.
Qed.

Lemma close_connection_eq k st :
  SQM._close_connection (transport := self k) st
  = (Return tt, logged [close_op k] (hear_out k (wire st) (logged (linger_ops k) st))).
Proof.
  destruct k; cbn; unfold SQMLE._close_connection, SQMLU._close_connection.
  - pose proof (until_silent_eq LE (wire st) (logged [SockSetLinger] st) eq_refl) as E.
    unfold until_silent in E.
    unfold mbind, M_bind, call. rewrite E. reflexivity.
  - pose proof (until_silent_eq LU (wire st) st eq_refl) as E.
    unfold until_silent in E.
    unfold mbind, M_bind, call. rewrite E. do 3 f_equal.
    destruct st; unfold logged; cbn. rewrite app_nil_r. reflexivity.
Qed.

End teardown.

(* ------------------------------------------------------------------ *)
(** * The exchange, one attempt at a time *)

Section exchange.
Context {cfg : configs_ssh}.

Lemma logged_logged a b st : logged b (logged a st) = logged (a ++ b) st.
Proof. unfold logged; cbn. rewrite app_assoc. reflexivity. Qed.

Lemma hear_out_addr k w st : addr (hear_out k w st) = addr st.
Proof.
  revert st; induction w as [|i w IH]; intros st; cbn; [reflexivity|].
  destruct (truthy _); [rewrite IH|]; reflexivity.
Qed.

Lemma hear_out_data k w st : data (hear_out k w st) = data st.
Proof.
  revert st; induction w as [|i w IH]; intros st; cbn; [reflexivity|].
  destruct (truthy _); [rewrite IH|]; reflexivity.
Qed.

Lemma hear_out_wire k w st : wire st = w -> wire (hear_out k w st) = teardown_rest w.
Proof.
  revert st; induction w as [|i w IH]; intros st E; cbn; rewrite ?E; [reflexivity|].
  destruct (truthy _); [apply IH|]; cbn; rewrite E; reflexivity.
Qed.

Lemma hear_out_log k w st :
  log (hear_out k w st) = log st ++ replicate (length (teardown_reads k w)) (read_op k).
Proof.
  revert st; induction w as [|i w IH]; intros st; cbn; [reflexivity|].
  destruct (truthy _); cbn; [|reflexivity].
  rewrite IH. cbn. rewrite <- app_assoc. reflexivity.
Qed.

Lemma absorb_buffer k i st :
  buffer (absorb k i st) = buffer st ++ option_list (stored_line i).
Proof.
  unfold absorb, buffer at 1; cbn. destruct (stored_line i) as [l|]; cbn.
  - rewrite lookup_insert_eq. reflexivity.
  - rewrite app_nil_r. reflexivity.
Qed.

Lemma hear_out_buffer k w st :
  buffer (hear_out k w st) = buffer st ++ omap stored_line (teardown_reads k w).
Proof.
  revert st; induction w as [|i w IH]; intros st; cbn.
  - rewrite absorb_buffer. destruct (stored_line _); reflexivity.
  - destruct (truthy _); cbn.
    + rewrite IH, absorb_buffer, <- app_assoc. destruct (stored_line i); reflexivity.
    + rewrite absorb_buffer. destruct (stored_line i); reflexivity.
Qed.

Lemma absorb_wf k i st : wf st -> wf (absorb k i st).
Proof.
  unfold wf, absorb; cbn. destruct (stored_line i); [|tauto].
  intros _. rewrite lookup_insert_eq. eauto.
Qed.

Lemma hear_out_wf k w st : wf st -> wf (hear_out k w st).
Proof.
  revert st; induction w as [|i w IH]; intros st Hwf; cbn.
  - by apply absorb_wf.
  - destruct (truthy _); [apply IH|]; by apply absorb_wf.
Qed.

Lemma send_command_eq k s st :
  SQM._send_command (transport := self k) s st =
  match encode utf8 s with
  | Return b => (Return tt, logged [write_op k b] st)
  | Raise e => (Raise e, st)
  end.
Proof.
  destruct k; cbn; unfold SQMLE._send_command, SQMLU._send_command,
    mbind, M_bind, lift; destruct (encode utf8 s); reflexivity.
Qed.

Lemma start_connection_eq k st :
  SQM.start_connection (transport := self k) st
  = (Return tt, logged (open_ops k (addr st)) st).
Proof.
  destruct k; cbn; unfold SQMLE.start_connection, SQMLU.start_connection,
    mbind, M_bind, call, self_addr; cbn; rewrite ?logged_logged; reflexivity.
Qed.

Lemma reset_device_eq k st :
  SQM._reset_device (T := self k) st = (Return tt, reset k st).
Proof.
  unfold SQM._reset_device, mbind, M_bind.
  rewrite close_connection_eq. unfold sleep, call.
  rewrite start_connection_eq. unfold reset. cbn.
  rewrite hear_out_addr, !logged_logged. reflexivity.
Qed.

Lemma send_and_receive_success k s b tries t st :
  encode utf8 s = Return b ->
  payload_text (next_in k (wire st)) = Some t ->
  SQM.send_and_receive (T := self k) s tries st = (Return t, attempt k b st).
Proof.
  intros Hs Ht. rewrite SQM.send_and_receive_equation_1.
  unfold mbind at 1, M_bind at 1. rewrite send_command_eq, Hs.
  unfold mbind at 1, M_bind at 1, sleep, call. 
  unfold mbind at 1, M_bind at 1. rewrite read_buffer_eq, !logged_logged. cbn [app wire logged].
  unfold attempt.
  set (i := next_in k (wire st)) in *.
  unfold try_except, mbind, M_bind, assert_not_none, lift.
  destruct i as [e|p]; cbn in *; [discriminate|].
  destruct (decode utf8 p) as [t'|e] eqn:E; cbn; [|discriminate].
  destruct (decide (t' = [])); [discriminate|]. cbn. rewrite E. congruence.
Qed.

Lemma sanity_check_fails (i : incoming) (st : session) :
  payload_text i = None ->
  (m ← assert_not_none (read_value i) ; lift (decode utf8 m)) st
  = (Raise (attempt_error i), st).
Proof.
  unfold mbind, M_bind, assert_not_none, lift.
  destruct i as [e|p]; cbn; [reflexivity|].
  destruct (decode utf8 p) as [t'|e] eqn:E; cbn.
  - destruct (decide (t' = [])); [reflexivity | discriminate].
  - rewrite E. reflexivity.
Qed.

Lemma send_and_receive_terminal k s b tries st :
  encode utf8 s = Return b ->
  payload_text (next_in k (wire st)) = None ->
  tries <= 0 ->
  SQM.send_and_receive (T := self k) s tries st
  = (if DEBUG then Raise (attempt_error (next_in k (wire st))) else Return [],
     logged [PrintErrReading (read_value (next_in k (wire st)))] (attempt k b st)).
Proof.
  intros Hs Ht Hle. rewrite SQM.send_and_receive_equation_1.
  unfold mbind at 1, M_bind at 1. rewrite send_command_eq, Hs.
  unfold mbind at 1, M_bind at 1, sleep, call.
  unfold mbind at 1, M_bind at 1. rewrite read_buffer_eq, !logged_logged. cbn [app wire logged].
  fold (attempt k b st). unfold try_except.
  rewrite sanity_check_fails by assumption.
  destruct (Z_le_gt_dec tries 0); [|lia].
  unfold mbind, M_bind, call, raise, mret, M_ret. destruct DEBUG; reflexivity.
Qed.

Lemma send_and_receive_retry k s b tries st :
  encode utf8 s = Return b ->
  payload_text (next_in k (wire st)) = None ->
  0 < tries ->
  SQM.send_and_receive (T := self k) s tries st
  = match SQM.send_and_receive (T := self k) s (tries - 1) (again k b st) with
    | (Return m, st') => (Return m, logged [PrintSensorInfo m] st')
    | (Raise e, st') => (Raise e, st')
    end.
Proof.
  intros Hs Ht Hlt. rewrite SQM.send_and_receive_equation_1.
  unfold mbind at 1, M_bind at 1. rewrite send_command_eq, Hs.
  unfold mbind at 1, M_bind at 1, sleep, call.
  unfold mbind at 1, M_bind at 1. rewrite read_buffer_eq, !logged_logged. cbn [app wire logged].
  fold (attempt k b st). unfold try_except.
  rewrite sanity_check_fails by assumption.
  destruct (Z_le_gt_dec tries 0); [lia|].
  unfold mbind at 1, M_bind at 1.
  unfold mbind at 1, M_bind at 1. rewrite reset_device_eq.
  unfold mbind at 1, M_bind at 1.
  fold (again k b st).
  unfold mbind, M_bind.
  destruct (SQM.send_and_receive s (tries - 1) (again k b st)) as [[m|e] st']; reflexivity.
Qed.

Lemma count_app p a b : count p (a ++ b) = (count p a + count p b)%nat.
Proof. unfold count. rewrite List.filter_app, length_app. reflexivity. Qed.

Lemma count_replicate p n o :
  count p (replicate n o) = if p o then n else 0%nat.
Proof.
  unfold count. induction n as [|n IH]; cbn.
  - destruct (p o); reflexivity.
  - destruct (p o); cbn; congruence.
Qed.

Lemma attempt_wire_eq k b st : wire (attempt k b st) = tail (wire st).
Proof. reflexivity. Qed.

Lemma attempt_log k b st :
  log (attempt k b st) = log st ++ [write_op k b; Sleep long_s; read_op k].
Proof. unfold attempt, absorb; cbn. rewrite <- app_assoc. reflexivity. Qed.

Lemma again_wire k b st : wire (again k b st) = attempt_wire 1 (wire st).
Proof.
  unfold again, reset; cbn. rewrite hear_out_wire by reflexivity. reflexivity.
Qed.

Lemma again_log k b st :
  log (again k b st)
  = log st ++ [write_op k b; Sleep long_s; read_op k; Sleep mid_s]
      ++ linger_ops k
      ++ replicate (length (teardown_reads k (tail (wire st)))) (read_op k)
      ++ [close_op k; Sleep short_s] ++ open_ops k (addr st) ++ [Sleep mid_s].
Proof.
  unfold again, reset; cbn. rewrite hear_out_log; cbn.
  rewrite <- !app_assoc. reflexivity.
Qed.

(** One failed attempt and its reconnect: one close, one settle delay,
    one open. *)
Lemma again_counts k b st :
  count is_close (log (again k b st)) = S (count is_close (log st))
  /\ count (is_sleep short_s) (log (again k b st)) = S (count (is_sleep short_s) (log st))
  /\ count is_open (log (again k b st)) = S (count is_open (log st)).
Proof.
  rewrite again_log, !count_app, !count_replicate.
  destruct k; cbn; repeat split; lia.
Qed.

Lemma retried_outcome k s tries (st : session) :
  let r' := SQM.send_and_receive (T := self k) s tries st in
  let r := match r' with
           | (Return m, st') => (Return m, logged [PrintSensorInfo m] st')
           | (Raise e, st') => (Raise e, st')
           end in
  r.1 = r'.1
  /\ forall p, (forall m, p (PrintSensorInfo m) = false) ->
       count p (log r.2) = count p (log r'.2).
Proof.
  cbv zeta. destruct (SQM.send_and_receive s tries st) as [[m|e] st']; cbn -[count].
  - split; [reflexivity|]. intros p Hp. rewrite count_app. unfold count at 2; cbn.
    rewrite Hp. cbn. lia.
  - split; reflexivity.
Qed.

End exchange.

(* ------------------------------------------------------------------ *)
(** * The override of the serial transport *)

Section override.
Context {cfg : configs_ssh}.

Lemma bind_ext {A B} (m : M A) (f g : A -> M B) st :
  (forall a st', f a st' = g a st') -> (m ≫= f) st = (m ≫= g) st.
Proof.
  intros E. unfold mbind, M_bind. destruct (m st) as [[a|e] st']; [apply E | reflexivity].
Qed.

Lemma bind_ext_l {A B} (m1 m2 : M A) (f : A -> M B) st :
  m1 st = m2 st -> (m1 ≫= f) st = (m2 ≫= f) st.
Proof. intros E. unfold mbind, M_bind. rewrite E. reflexivity. Qed.

Lemma try_except_ext {A} (body : M A) (h1 h2 : exn -> M A) st :
  (forall e st', h1 e st' = h2 e st') -> try_except body h1 st = try_except body h2 st.
Proof.
  intros E. unfold try_except. destruct (body st) as [[a|e] st']; [reflexivity | apply E].
Qed.

Lemma SQMLU_send_and_receive_eq s tries st :
  SQMLU.send_and_receive s tries st
  = SQM.send_and_receive (T := SQMLU.self) s tries st.
Proof.
  remember (Z.to_nat tries) as n eqn:En. revert tries En st.
  induction n as [n IH] using lt_wf_ind. intros tries En st.
  rewrite SQMLU.send_and_receive_equation_1, SQM.send_and_receive_equation_1.
  apply bind_ext; intros _ st1.
  apply bind_ext; intros _ st2.
  apply bind_ext; intros byte_m st3.
  apply try_except_ext; intros e st4.
  destruct (Z_le_gt_dec tries 0) as [Hle|Hgt]; [reflexivity|].
  apply bind_ext; intros _ st5.
  apply bind_ext; intros _ st6.
  apply bind_ext; intros _ st7.
  apply bind_ext_l.
  apply (IH (Z.to_nat (tries - 1))); [lia | reflexivity].
Qed.

Lemma send_and_receive_base k s tries st :
  send_and_receive k s tries st = SQM.send_and_receive (T := self k) s tries st.
Proof. destruct k; [reflexivity | apply SQMLU_send_and_receive_eq]. Qed.

End override.

(* ------------------------------------------------------------------ *)
(** * Retries *)

Section retries.
Context {cfg : configs_ssh}.

Lemma attempt_wire_again k b st j :
  attempt_wire j (wire (again k b st)) = attempt_wire (S j) (wire st).
Proof. rewrite again_wire. reflexivity. Qed.

(** C3: when the first [n <= tries] attempts of [send_and_receive] find
    no usable payload and the next one finds a decodable, non-empty one,
    the call returns the decoded text of that read after exactly [n]
    reconnects (close, settle delay, open); with [n = 0] the call makes
    one send, one settle delay and one read, and nothing else. *)
Theorem send_and_receive_succeeds_after (k : kind) (s : str) (b : bytes)
    (n : nat) (tries : Z) (t : str) (st : session) :
  encode utf8 s = Return b ->
  Z.of_nat n <= tries ->
  (forall j, (j < n)%nat ->
     payload_text (next_in k (attempt_wire j (wire st))) = None) ->
  payload_text (next_in k (attempt_wire n (wire st))) = Some t ->
  let r := send_and_receive k s tries st in
  r.1 = Return t
  /\ count is_close (log r.2) = (count is_close (log st) + n)%nat
  /\ count (is_sleep short_s) (log r.2) = (count (is_sleep short_s) (log st) + n)%nat
  /\ count is_open (log r.2) = (count is_open (log st) + n)%nat
  /\ (n = 0%nat -> log r.2 = log st ++ [write_op k b; Sleep long_s; read_op k]).
Proof.
  intros Hs. cbv zeta. rewrite send_and_receive_base.
  revert tries st. induction n as [|n IH]; intros tries st Hn Hfail Hok.
  - cbn in Hok. rewrite (send_and_receive_success k s b tries t) by assumption. cbn [fst snd].
    rewrite attempt_log, !count_app.
    destruct k; cbn; repeat split; lia.
  - assert (H0 : payload_text (next_in k (wire st)) = None)
      by (apply (Hfail 0%nat); lia).
    rewrite (send_and_receive_retry k s b) by (assumption || lia).
    destruct (retried_outcome k s (tries - 1) (again k b st)) as [E1 E2].
    cbv zeta in E1, E2. rewrite E1, !E2 by reflexivity.
    destruct (IH (tries - 1) (again k b st)) as (R & C1 & C2 & C3 & _).
    + lia.
    + intros j Hj. rewrite attempt_wire_again. apply Hfail. lia.
    + rewrite attempt_wire_again. exact Hok.
    + destruct (again_counts k b st) as (A1 & A2 & A3).
      rewrite R, C1, C2, C3, A1, A2, A3. repeat split; lia.
Qed.

(** C2: when all [tries + 1] attempts of [send_and_receive] find no
    usable payload, the call returns the empty string if [DEBUG] is
    unset and raises the error of the last attempt if it is set, in both
    cases after exactly [tries] reconnects. *)
Theorem send_and_receive_exhausted (k : kind) (s : str) (b : bytes)
    (tries : Z) (st : session) :
  encode utf8 s = Return b ->
  0 <= tries ->
  (forall j, (j <= Z.to_nat tries)%nat ->
     payload_text (next_in k (attempt_wire j (wire st))) = None) ->
  let r := send_and_receive k s tries st in
  let last := next_in k (attempt_wire (Z.to_nat tries) (wire st)) in
  (DEBUG = false -> r.1 = Return [])
  /\ (DEBUG = true -> r.1 = Raise (attempt_error last))
  /\ count is_close (log r.2) = (count is_close (log st) + Z.to_nat tries)%nat
  /\ count (is_sleep short_s) (log r.2)
     = (count (is_sleep short_s) (log st) + Z.to_nat tries)%nat
  /\ count is_open (log r.2) = (count is_open (log st) + Z.to_nat tries)%nat.
Proof.
  intros Hs. cbv zeta. rewrite send_and_receive_base.
  remember (Z.to_nat tries) as n eqn:En. revert tries En st.
  induction n as [|n IH]; intros tries En st Hpos Hfail.
  - assert (H0 : payload_text (next_in k (wire st)) = None)
      by (apply (Hfail 0%nat); lia).
    rewrite (send_and_receive_terminal k s b) by (assumption || lia). cbn [fst snd].
    cbn [attempt_wire]. cbn [logged log]. rewrite attempt_log, !count_app.
    split; [intros ->; reflexivity|]. split; [intros ->; reflexivity|].
    destruct k; cbn; repeat split; lia.
  - assert (H0 : payload_text (next_in k (wire st)) = None)
      by (apply (Hfail 0%nat); lia).
    rewrite (send_and_receive_retry k s b) by (assumption || lia).
    destruct (retried_outcome k s (tries - 1) (again k b st)) as [E1 E2].
    cbv zeta in E1, E2. rewrite E1, !E2 by reflexivity.
    destruct (IH (tries - 1) ltac:(lia) (again k b st)) as (R1 & R2 & C1 & C2 & C3).
    + lia.
    + intros j Hj. rewrite attempt_wire_again. apply Hfail. lia.
    + destruct (again_counts k b st) as (A1 & A2 & A3).
      rewrite attempt_wire_again in R2.
      rewrite C1, C2, C3, A1, A2, A3. repeat split; try lia; assumption.
Qed.

End retries.

(* ------------------------------------------------------------------ *)
(** * Empty payloads *)

Section empty_payload.
Context {cfg : configs_ssh}.

Lemma exchange_prefix k s {A} (rest : option bytes -> M A) st :
  (SQM._send_command (transport := self k) s ;;
   sleep long_s ;;
   byte_m ← SQM._read_buffer (transport := self k) ;
   rest byte_m) st
  = match encode utf8 s with
    | Return b => rest (read_value (next_in k (wire st))) (attempt k b st)
    | Raise e => (Raise e, st)
    end.
Proof.
  unfold mbind at 1, M_bind at 1. rewrite send_command_eq.
  destruct (encode utf8 s) as [b|e]; [|reflexivity].
  unfold mbind at 1, M_bind at 1, sleep, call.
  unfold mbind at 1, M_bind at 1. rewrite read_buffer_eq, !logged_logged. reflexivity.
Qed.

(** C8: a read whose payload decodes to the empty string leaves
    [send_and_receive] exactly where a read that raised leaves it: with
    no retry left the call ends as a failed one (the error or the empty
    result, after the error line), otherwise it reconnects and tries
    again; the whole call has the same result, the same session and the
    same calls in both cases. *)
Theorem send_and_receive_empty_payload (k : kind) (s : str) (b p : bytes)
    (e : exn) (tries : Z) (st : session) :
  encode utf8 s = Return b ->
  decode utf8 p = Return [] ->
  let r := send_and_receive k s tries (finding (Gives p) st) in
  r = send_and_receive k s tries (finding (Fails e) st)
  /\ (tries <= 0 ->
      r = (if DEBUG then Raise AssertionError else Return [],
           logged [PrintErrReading None] (attempt k b (finding (Gives p) st))))
  /\ (0 < tries ->
      r = match send_and_receive k s (tries - 1) (again k b (finding (Gives p) st)) with
          | (Return m, st') => (Return m, logged [PrintSensorInfo m] st')
          | (Raise x, st') => (Raise x, st')
          end).
Proof.
  intros Hs Hp. cbv zeta.
  assert (Hv : read_value (Gives p) = None) by (unfold read_value; rewrite Hp; reflexivity).
  assert (Hl : stored_line (Gives p) = None)
    by (unfold stored_line, payload_text; rewrite Hp; reflexivity).
  assert (He : attempt_error (Gives p) = AssertionError)
    by (unfold attempt_error; rewrite Hp; reflexivity).
  assert (Hnone : payload_text (next_in k (wire (finding (Gives p) st))) = None)
    by (unfold finding, next_in, wire, payload_text; rewrite Hp; reflexivity).
  rewrite !send_and_receive_base. split; [|split].
  - rewrite SQM.send_and_receive_equation_1, !exchange_prefix, Hs.
    change (next_in k (wire (finding (Gives p) st))) with (Gives p).
    change (next_in k (wire (finding (Fails e) st))) with (Fails e).
    rewrite Hv. unfold attempt.
    change (next_in k (wire (finding (Gives p) st))) with (Gives p).
    change (next_in k (wire (finding (Fails e) st))) with (Fails e).
    unfold absorb. rewrite Hl. reflexivity.
  - intros Hle. rewrite (send_and_receive_terminal k s b) by assumption.
    change (next_in k (wire (finding (Gives p) st))) with (Gives p).
    rewrite Hv, He. reflexivity.
  - intros Hlt. apply (send_and_receive_retry k s b); assumption.
Qed.

End empty_payload.

(* ------------------------------------------------------------------ *)
(** * The collected lines *)

Section collected.
Context {cfg : configs_ssh}.

Lemma return_collected_eq st :
  wf st ->
  let d := fresh (dom (store st)) in
  let r := SQM._return_collected st in
  r.1 = Return d /\ d <> data st
  /\ lines_of d r.2 = Some (buffer st)
  /\ buffer r.2 = [] /\ wf r.2 /\ data r.2 = data st
  /\ (forall l, l <> d -> l <> data st -> store r.2 !! l = store st !! l).
Proof.
  intros Hwf. cbv zeta. unfold SQM._return_collected, lines_of, buffer, wf. cbn.
  assert (Hd : fresh (dom (store st)) <> data st).
  { intros E. apply (is_fresh (dom (store st))). rewrite E. by apply elem_of_dom. }
  split; [reflexivity|]. split; [exact Hd|].
  rewrite lookup_insert_ne by congruence. rewrite !lookup_insert_eq.
  repeat split; eauto.
  intros l H1 H2. rewrite !lookup_insert_ne by congruence. reflexivity.
Qed.

(** C6: a drain returns the lines of the buffer, in the order they were
    appended, and leaves the buffer empty; of two drains in a row the
    first holds all the lines, and still holds them after the second,
    and the second holds none. *)
Theorem return_collected_twice (st : session) :
  wf st ->
  let r1 := SQM._return_collected st in
  let r2 := SQM._return_collected r1.2 in
  exists d1 d2,
    r1.1 = Return d1 /\ lines_of d1 r1.2 = Some (buffer st) /\ buffer r1.2 = []
    /\ r2.1 = Return d2 /\ lines_of d2 r2.2 = Some [] /\ buffer r2.2 = []
    /\ lines_of d1 r2.2 = Some (buffer st) /\ d1 <> d2.
Proof.
  intros Hwf. cbv zeta.
  destruct (return_collected_eq st Hwf) as (R1 & N1 & L1 & B1 & W1 & D1 & _).
  cbv zeta in *.
  destruct (return_collected_eq _ W1) as (R2 & N2 & L2 & B2 & _ & _ & F2).
  cbv zeta in *.
  set (r1 := SQM._return_collected st) in *.
  set (r2 := SQM._return_collected r1.2) in *.
  exists (fresh (dom (store st))), (fresh (dom (store r1.2))).
  assert (Hne : fresh (dom (store st)) <> fresh (dom (store r1.2))).
  { intros E. apply (is_fresh (dom (store r1.2))). rewrite <- E.
    apply elem_of_dom. unfold lines_of in L1. rewrite L1. eauto. }
  rewrite B1 in L2.
  repeat split; try assumption.
  unfold lines_of. rewrite F2; [exact L1 | exact Hne | congruence].
Qed.

End collected.

(* ------------------------------------------------------------------ *)
(** * What strip does *)

Lemma lstrip_head s c : head (lstrip s) = Some c -> isspace c = false.
Proof.
  induction s as [|a s IH]; cbn; [discriminate|].
  destruct (isspace a) eqn:E; [exact IH|]. cbn. intros [= <-]. exact E.
Qed.

Lemma lstrip_suffix s : exists pre, s = pre ++ lstrip s.
Proof.
  induction s as [|a s [pre IH]]; cbn; [by exists []|].
  destruct (isspace a); [|by exists []].
  exists (a :: pre). cbn. congruence.
Qed.

Lemma rstrip_prefix s : exists post, s = rstrip s ++ post.
Proof.
  destruct (lstrip_suffix (reverse s)) as [pre E].
  exists (reverse pre). unfold rstrip. rewrite <- reverse_app, <- E, reverse_involutive.
  reflexivity.
Qed.

Lemma strip_trimmed s : trimmed (strip s).
Proof.
  unfold strip. split; intros c Hc.
  - apply (lstrip_head s).
    destruct (rstrip_prefix (lstrip s)) as [post E]. rewrite E.
    destruct (rstrip (lstrip s)); [discriminate | exact Hc].
  - unfold rstrip in Hc. rewrite last_reverse in Hc.
    exact (lstrip_head _ _ Hc).
Qed.

Lemma lstrip_split s :
  exists pre, s = pre ++ lstrip s /\ Forall (fun c => isspace c = true) pre.
Proof.
  induction s as [|a s (pre & IH & Hpre)]; cbn.
  - exists []. split; [reflexivity | constructor].
  - destruct (isspace a) eqn:E.
    + exists (a :: pre). split; [cbn; congruence | constructor; assumption].
    + exists []. split; [reflexivity | constructor].
Qed.

(** [strip] takes whitespace off both ends and nothing else. *)
Lemma strip_split s :
  exists pre post,
    s = pre ++ strip s ++ post
    /\ Forall (fun c => isspace c = true) pre
    /\ Forall (fun c => isspace c = true) post.
Proof.
  destruct (lstrip_split s) as (pre & E & Hpre).
  destruct (lstrip_split (reverse (lstrip s))) as (q & Eq & Hq).
  exists pre, (reverse q). split; [|split; [exact Hpre | by apply Forall_reverse]].
  unfold strip, rstrip. rewrite <- reverse_app, <- Eq, reverse_involutive. exact E.
Qed.

Lemma lstrip_id s :
  (forall c, head s = Some c -> isspace c = false) -> lstrip s = s.
Proof.
  destruct s as [|a s]; [reflexivity|]. cbn. intros H. rewrite (H a eq_refl). reflexivity.
Qed.

(** A text with no whitespace at its ends is its own [strip]. *)
Lemma strip_of_trimmed s : trimmed s -> strip s = s.
Proof.
  intros [Hh Hl]. unfold strip, rstrip. rewrite (lstrip_id s Hh).
  rewrite lstrip_id; [apply reverse_involutive|].
  intros c Hc. rewrite head_reverse in Hc. exact (Hl c Hc).
Qed.

(* ------------------------------------------------------------------ *)
(** * Lines kept by reads *)

Section kept.
Context {cfg : configs_ssh}.

Lemma stored_line_text i t : payload_text i = Some t -> stored_line i = Some (strip t).
Proof. unfold stored_line. intros ->. reflexivity. Qed.

(** C9: a read that finds a decodable, non-empty payload appends the
    trimmed text to the buffer, also when [send_and_receive] makes the
    read: the line appended is the decoded text with the whitespace at
    its two ends taken off and nothing else, and it has no whitespace
    at its ends.  The next drain returns that line; so when the text
    [send_and_receive] returned has no whitespace at its ends, the very
    line the call returned is in the list the drain returns. *)
Theorem read_lines_are_collected (k : kind) (s : str) (b : bytes) (tries : Z)
    (t : str) (st : session) :
  wf st ->
  encode utf8 s = Return b ->
  payload_text (next_in k (wire st)) = Some t ->
  (exists pre post,
      t = pre ++ strip t ++ post
      /\ Forall (fun c => isspace c = true) pre
      /\ Forall (fun c => isspace c = true) post)
  /\ trimmed (strip t)
  /\ buffer (SQM._read_buffer (transport := self k) st).2 = buffer st ++ [strip t]
  /\ let r := send_and_receive k s tries st in
     let c := SQM._return_collected r.2 in
     r.1 = Return t
     /\ buffer r.2 = buffer st ++ [strip t]
     /\ exists d, c.1 = Return d
          /\ lines_of d c.2 = Some (buffer st ++ [strip t])
          /\ (trimmed t -> strip t = t /\ t ∈ buffer st ++ [strip t]).
Proof.
  intros Hwf Hs Ht.
  split; [apply strip_split|]. split; [apply strip_trimmed|]. split.
  - rewrite read_buffer_eq. cbn [snd]. rewrite absorb_buffer, (stored_line_text _ t Ht).
    reflexivity.
  - cbv zeta. rewrite send_and_receive_base.
    rewrite (send_and_receive_success k s b tries t) by assumption. cbn [fst snd].
    assert (Hb : buffer (attempt k b st) = buffer st ++ [strip t]).
    { unfold attempt. rewrite absorb_buffer.
      change (wire (logged _ st)) with (wire st).
      rewrite (stored_line_text _ t Ht). reflexivity. }
    assert (Hw : wf (attempt k b st)) by (apply absorb_wf; exact Hwf).
    split; [reflexivity|]. split; [exact Hb|].
    destruct (return_collected_eq _ Hw) as (R & _ & L & _).
    cbv zeta in R, L. eexists. split; [exact R|]. rewrite L, Hb.
    split; [reflexivity|]. intros Htr. rewrite (strip_of_trimmed t Htr).
    split; [reflexivity | set_solver].
Qed.

(** C7, as the code has it: teardown reads until a read returns nothing,
    then closes the handle once.  What the reads returned is dropped,
    but every decodable, non-empty payload among them has been appended,
    stripped, to the buffer by the read itself. *)
Theorem close_connection_reads_into_buffer (k : kind) (st : session) :
  let r := SQM._close_connection (transport := self k) st in
  let heard := teardown_reads k (wire st) in
  r.1 = Return tt
  /\ log r.2 = log st ++ linger_ops k
                 ++ replicate (length heard) (read_op k) ++ [close_op k]
  /\ count is_close (log r.2) = S (count is_close (log st))
  /\ (exists before final, heard = before ++ [final]
        /\ Forall (fun i => truthy (read_value i) = true) before
        /\ truthy (read_value final) = false)
  /\ wire r.2 = teardown_rest (wire st)
  /\ buffer r.2 = buffer st ++ omap stored_line heard.
Proof.
  cbv zeta. rewrite close_connection_eq. cbn [fst snd].
  split; [reflexivity|]. split.
  { cbn [log logged]. rewrite hear_out_log. cbn [log logged].
    rewrite <- !app_assoc. reflexivity. }
  split.
  { cbn [log logged]. rewrite hear_out_log. cbn [log logged].
    rewrite !count_app, count_replicate. destruct k; cbn; lia. }
  split.
  { induction (wire st) as [|i w IH]; cbn [teardown_reads].
    - exists [], (silence k). repeat split; [constructor | apply silence_falsy].
    - destruct (truthy (read_value i)) eqn:E.
      + destruct IH as (before & final & -> & Hb & Hf).
        exists (i :: before), final. repeat split; [constructor; assumption | exact Hf].
      + exists [], i. repeat split; [constructor | exact E]. }
  split.
  { cbn [wire logged]. rewrite hear_out_wire by reflexivity. reflexivity. }
  unfold buffer at 1. cbn [store data logged].
  change (default [] (store ?s !! data ?s)) with (buffer s).
  rewrite hear_out_buffer. reflexivity.
Qed.

End kept.

(* ------------------------------------------------------------------ *)
(** * Trimmed lines *)

Section trimmed_lines.
Context {cfg : configs_ssh}.

Lemma stored_line_trimmed i l : stored_line i = Some l -> trimmed l.
Proof.
  unfold stored_line. destruct (payload_text i); [|discriminate].
  intros [= <-]. apply strip_trimmed.
Qed.

Lemma clean_absorb k i st : clean st -> clean (absorb k i st).
Proof.
  unfold clean. rewrite absorb_buffer. intros Hc. apply Forall_app. split; [exact Hc|].
  destruct (stored_line i) eqn:E; cbn; [|constructor].
  constructor; [|constructor]. exact (stored_line_trimmed _ _ E).
Qed.

Lemma hear_out_preserves (P : session -> Prop) k :
  (forall i st, P st -> P (absorb k i st)) ->
  forall w st, P st -> P (hear_out k w st).
Proof.
  intros Ha w. induction w as [|i w IH]; intros st Hp; cbn.
  - by apply Ha.
  - destruct (truthy _); [apply IH|]; by apply Ha.
Qed.

(** What holds of the session before [send_and_receive], and is kept
    by every logged call and every read, holds after it. *)
Lemma send_and_receive_preserves (P : session -> Prop) k s :
  (forall ops st, P st -> P (logged ops st)) ->
  (forall i st, P st -> P (absorb k i st)) ->
  forall tries st, P st -> P (send_and_receive k s tries st).2.
Proof.
  intros Hl Ha tries. remember (Z.to_nat tries) as n eqn:En. revert tries En.
  induction n as [n IH] using lt_wf_ind. intros tries En st Hp.
  rewrite send_and_receive_base.
  destruct (encode utf8 s) as [b|e] eqn:Hs.
  - assert (Hat : P (attempt k b st)) by (apply Ha, Hl, Hp).
    destruct (payload_text (next_in k (wire st))) as [t|] eqn:Ht.
    + rewrite (send_and_receive_success k s b tries t) by assumption. exact Hat.
    + destruct (Z_le_gt_dec tries 0) as [Hle|Hgt].
      * rewrite (send_and_receive_terminal k s b) by assumption. by apply Hl.
      * rewrite (send_and_receive_retry k s b) by (assumption || lia).
        assert (Hag : P (again k b st)).
        { unfold again, reset. apply Hl, Hl, Hl, hear_out_preserves; [exact Ha|].
          apply Hl, Hl, Hat. }
        specialize (IH (Z.to_nat (tries - 1)) ltac:(lia) (tries - 1) eq_refl _ Hag).
        rewrite send_and_receive_base in IH.
        destruct (SQM.send_and_receive s (tries - 1) (again k b st)) as [[m|x] st'];
          cbn [snd] in *; [by apply Hl | exact IH].
  - rewrite SQM.send_and_receive_equation_1, exchange_prefix, Hs. exact Hp.
Qed.

(** C5, as the code has it: every line a read stores for a later drain
    is the stripped decoded payload, with no whitespace at either end,
    so the buffer and the list a drain returns hold trimmed lines only,
    whatever reads, teardowns and exchanges came before; the text
    [send_and_receive] returns is the decoded payload as it was read. *)
Theorem stored_lines_are_trimmed (k : kind) (s : str) (tries : Z) (st : session) :
  wf st ->
  clean st ->
  (forall i l, stored_line i = Some l -> trimmed l)
  /\ clean (SQM._read_buffer (transport := self k) st).2
  /\ clean (SQM._close_connection (transport := self k) st).2
  /\ clean (send_and_receive k s tries st).2
  /\ (exists d, (SQM._return_collected st).1 = Return d
        /\ exists ls, lines_of d (SQM._return_collected st).2 = Some ls
             /\ Forall trimmed ls)
  /\ (forall b p t, encode utf8 s = Return b ->
        next_in k (wire st) = Gives p -> decode utf8 p = Return t -> t <> [] ->
        (send_and_receive k s tries st).1 = Return t).
Proof.
  intros Hwf Hc. split; [exact stored_line_trimmed|]. split.
  { rewrite read_buffer_eq. by apply clean_absorb. }
  split.
  { rewrite close_connection_eq. cbn [snd].
    apply (hear_out_preserves clean k (clean_absorb k)). exact Hc. }
  split.
  { apply (send_and_receive_preserves clean); [intros; assumption | apply clean_absorb | exact Hc]. }
  split.
  { destruct (return_collected_eq st Hwf) as (R & _ & L & _). cbv zeta in R, L.
    eexists. split; [exact R|]. eexists. split; [exact L | exact Hc]. }
  intros b p t Hs Hi Hp Hne. rewrite send_and_receive_base.
  rewrite (send_and_receive_success k s b tries t); [reflexivity | exact Hs |].
  rewrite Hi. unfold payload_text. rewrite Hp. destruct (decide (t = [])); congruence.
Qed.

End trimmed_lines.

(* ------------------------------------------------------------------ *)
(** * The network search *)

Section network_search.
Context {cfg : configs_ssh}.

Lemma remember_last_sender addr ps :
  fst <$> remember addr ps
  = match last_sender ps with Some h => Some h | None => fst <$> addr end.
Proof.
  unfold remember, last_sender.
  induction ps as [|p ps IH] using rev_ind; [reflexivity|].
  rewrite foldl_app, omap_app. cbn. unfold sender at 2.
  destruct (found p) as [e|buf host port]; cbn.
  - rewrite app_nil_r. exact IH.
  - rewrite last_snoc. reflexivity.
Qed.

Lemma reply_loop_skip starttime before rest addr printed :
  Forall (fun q => ends_loop starttime q = false) before ->
  exists printed',
    SQMLE.reply_loop starttime (before ++ rest) addr printed
    = SQMLE.reply_loop starttime rest (remember addr before) printed'.
Proof.
  revert addr printed. induction before as [|p before IH]; intros addr printed Hb.
  - exists printed. reflexivity.
  - inversion Hb as [|? ? Hp Hb']; subst. unfold ends_loop, raises in Hp.
    cbn [app SQMLE.reply_loop remember foldl].
    destruct (found p) as [e|buf host port].
    + cbn in Hp. rewrite Hp. apply IH, Hb'.
    + destruct (SQMLE.marker_test buf) as [[|]|e]; [apply IH, Hb' ..|].
      cbn in Hp. rewrite Hp. apply IH, Hb'.
Qed.

Lemma reply_loop_break starttime p rest addr printed :
  ends_loop starttime p = true ->
  SQMLE.reply_loop starttime (p :: rest) addr printed
  = Broke (remember addr [p]) printed.
Proof.
  unfold ends_loop, raises. cbn. destruct (found p) as [e|buf host port].
  - cbn. intros ->. reflexivity.
  - destruct (SQMLE.marker_test buf) as [[|]|e]; cbn; try discriminate.
    intros ->. reflexivity.
Qed.

Lemma reply_loop_polling starttime script addr printed :
  Forall (fun q => ends_loop starttime q = false) script ->
  exists a printed', SQMLE.reply_loop starttime script addr printed = StillPolling a printed'.
Proof.
  intros Hs. destruct (reply_loop_skip starttime script [] addr printed Hs) as [pr E].
  rewrite app_nil_r in E. rewrite E. cbn. eauto.
Qed.

(** The marker test never holds: one character is compared with the two
    of ["f7"]. *)
Lemma marker_test_never buf : SQMLE.marker_test buf <> Return true.
Proof.
  unfold SQMLE.marker_test. destruct (decode hex buf) as [t|e]; [|discriminate].
  destruct (t !! 3%nat) as [c|]; [|discriminate].
  rewrite bool_decide_eq_false_2; [discriminate|]. vm_compute. discriminate.
Qed.

(** C1, as the code has it: the search polls until a pass raises with
    more than 3 seconds gone, and returns nothing before that; every
    datagram received until then replaces the remembered sender, marker
    or not; the search returns the source address of the last datagram
    received, and raises the assertion error of "Device not found" only
    when no datagram was received at all. *)
Theorem search_returns_last_sender (starttime : Q) (script : list poll) (payload : bytes) :
  encode hex (lit "000000f6") = Return payload ->
  (forall before p after,
      script = before ++ p :: after ->
      Forall (fun q => ends_loop starttime q = false) before ->
      ends_loop starttime p = true ->
      exists printed,
        SQMLE._search starttime script
        = Finished (match last_sender (before ++ [p]) with
                    | Some host => Return host
                    | None => Raise AssertionError
                    end) printed)
  /\ (Forall (fun q => ends_loop starttime q = false) script ->
      SQMLE._search starttime script = Unfinished).
Proof.
  intros Hp. unfold SQMLE._search. rewrite Hp. split.
  - intros before p after -> Hb He.
    destruct (reply_loop_skip starttime before (p :: after) None [LookingForReplies] Hb)
      as [pr E].
    rewrite E, (reply_loop_break _ _ _ _ _ He).
    pose proof (remember_last_sender None (before ++ [p])) as L.
    unfold remember in L. rewrite foldl_app in L. fold (remember None before) in L.
    fold (remember (remember None before) [p]) in L.
    destruct (remember (remember None before) [p]) as [[host port]|];
      destruct (last_sender (before ++ [p])); cbn in L; try discriminate.
    + injection L as ->. eauto.
    + eauto.
  - intros Hs.
    destruct (reply_loop_polling starttime script None [LookingForReplies] Hs) as (a & pr & E).
    rewrite E. reflexivity.
Qed.

End network_search.

(* ------------------------------------------------------------------ *)
(** * The serial search *)

Section serial_search.
Context {cfg : configs_ssh}.

Lemma opened_app a b : opened (a ++ b) = opened a ++ opened b.
Proof. apply omap_app. Qed.

Lemma probe_ports_skip env ix before rest calls :
  encode utf8 (lit "ix") = Return ix ->
  Forall (fun q => verdict (env q) = Return false) before ->
  exists calls',
    SQMLU.probe_ports env (before ++ rest) calls = SQMLU.probe_ports env rest calls'
    /\ opened calls' = opened calls ++ before.
Proof.
  intros Hix. revert calls. induction before as [|q before IH]; intros calls Hb.
  - exists calls. rewrite app_nil_r. split; reflexivity.
  - inversion Hb as [|? ? Hq Hb']; subst. cbn [app SQMLU.probe_ports].
    unfold verdict in Hq. destruct (env q) as [e|reply]; [discriminate|].
    rewrite Hix. destruct (decode utf8 reply) as [[|c t]|e]; try discriminate.
    injection Hq as ->.
    destruct (IH (((calls ++ [SerialOpen q]) ++ [SerialWrite ix; SerialReadline])) Hb')
      as (calls' & E & O).
    exists calls'. split; [exact E|].
    rewrite O, !opened_app, <- !app_assoc. reflexivity.
Qed.

Lemma probe_ports_stop env ix port rest calls :
  encode utf8 (lit "ix") = Return ix ->
  verdict (env port) <> Return false ->
  exists calls',
    SQMLU.probe_ports env (port :: rest) calls
    = (match verdict (env port) with
       | Return _ => Return (Some port)
       | Raise e => Raise e
       end, calls')
    /\ opened calls' = opened calls ++ [port].
Proof.
  intros Hix Hv. cbn [SQMLU.probe_ports]. unfold verdict in *.
  destruct (env port) as [e|reply].
  - eexists. split; [reflexivity|]. rewrite opened_app. reflexivity.
  - rewrite Hix. destruct (decode utf8 reply) as [[|c t]|e].
    + eexists. split; [reflexivity|]. rewrite !opened_app. cbn. by rewrite app_nil_r.
    + destruct (bool_decide ([c] = lit "i")); [|congruence].
      eexists. split; [reflexivity|]. rewrite !opened_app. cbn. by rewrite app_nil_r.
    + eexists. split; [reflexivity|]. rewrite !opened_app. cbn. by rewrite app_nil_r.
Qed.

(** C4, as the code has it: the search tries its candidate ports in
    order.  A port whose reply decodes to a text that starts with
    another character than the marker is passed over; the first port
    whose reply starts with the marker is returned and no later port is
    opened; a port that cannot be opened, or whose reply is empty or
    does not decode, ends the search with that error, no later port
    being opened; and when every candidate has been passed over the
    search raises the assertion error of "Device not found". *)
Theorem search_stops_at_first_port (platform : str) (env : str -> port_reply)
    (ix : bytes) :
  encode utf8 (lit "ix") = Return ix ->
  let ports := SQMLU.candidate_ports platform in
  let r := SQMLU._search platform env in
  (forall before port after,
      ports = before ++ port :: after ->
      Forall (fun q => verdict (env q) = Return false) before ->
      (verdict (env port) = Return true -> r.1 = Return port)
      /\ (forall e, verdict (env port) = Raise e -> r.1 = Raise e)
      /\ (verdict (env port) <> Return false -> opened r.2 = before ++ [port]))
  /\ (Forall (fun q => verdict (env q) = Return false) ports ->
      r.1 = Raise AssertionError /\ opened r.2 = ports).
Proof.
  intros Hix. cbv zeta. unfold SQMLU._search. split.
  - intros before port after -> Hb.
    destruct (probe_ports_skip env ix before (port :: after) [] Hix Hb) as (c1 & E1 & O1).
    rewrite E1. split; [|split].
    + intros Hv.
      destruct (probe_ports_stop env ix port after c1 Hix) as (c2 & E2 & O2);
        [congruence|]. rewrite E2, Hv. reflexivity.
    + intros e Hv.
      destruct (probe_ports_stop env ix port after c1 Hix) as (c2 & E2 & O2);
        [congruence|]. rewrite E2, Hv. reflexivity.
    + intros Hv.
      destruct (probe_ports_stop env ix port after c1 Hix Hv) as (c2 & E2 & O2).
      rewrite E2. rewrite O1 in O2. cbn in O2.
      destruct (verdict (env port)) as [v|e]; cbn; exact O2.
  - intros Hall.
    destruct (probe_ports_skip env ix _ [] [] Hix Hall) as (c1 & E1 & O1).
    rewrite app_nil_r in E1. rewrite E1. cbn. split; [reflexivity | exact O1].
Qed.

End serial_search.

(* ------------------------------------------------------------------ *)
(** * The override against the base method *)

(** C10: on a serial session, the override [SQMLU.send_and_receive] and
    the base method [SQM.send_and_receive] do the same for every
    command, every number of tries and every wire: the same value
    returned or error raised, the same session left, the same calls
    made in the same order. *)
Theorem override_equals_base {cfg : configs_ssh} (s : str) (tries : Z) (st : session) :
  let lu := SQMLU.send_and_receive s tries st in
  let base := SQM.send_and_receive (T := SQMLU.self) s tries st in
  lu = base /\ lu.1 = base.1 /\ log lu.2 = log base.2.
Proof.
  cbv zeta. rewrite SQMLU_send_and_receive_eq. repeat split.
Qed.

(* ------------------------------------------------------------------ *)
(** * Runs *)

Lemma send_and_receive_succeeds_after_witness :
  let st := session_on [] [Fails TimeoutError; Gives (blit "junk"); Gives []; Gives reading] in
  let r := send_and_receive (cfg := with_utf8 false) LE (lit "rx") 2 st in
  r.1 = Return reading_text
  /\ count is_close (log r.2) = (count is_close (log st) + 1)%nat
  /\ count (is_sleep short_s) (log r.2) = (count (is_sleep short_s) (log st) + 1)%nat
  /\ count is_open (log r.2) = (count is_open (log st) + 1)%nat
  /\ (1%nat = 0%nat ->
      log r.2 = log st ++ [write_op LE (blit "rx"); Sleep long_s; read_op LE]).
Proof.
  apply (send_and_receive_succeeds_after (cfg := with_utf8 false)
           LE (lit "rx") (blit "rx") 1 2 reading_text).
  - reflexivity.
  - lia.
  - intros [|j] Hj; [reflexivity | lia].
  - reflexivity.
Defined.

Lemma send_and_receive_exhausted_witness :
  let st := session_on [] [Fails TimeoutError; Gives []; Gives [xff; xfe]] in
  let r := send_and_receive (cfg := with_utf8 true) LU (lit "rx") 1 st in
  let last := next_in LU (attempt_wire (cfg := with_utf8 true) (Z.to_nat 1) (wire st)) in
  (true = false -> r.1 = Return [])
  /\ (true = true -> r.1 = Raise (attempt_error (cfg := with_utf8 true) last))
  /\ count is_close (log r.2) = (count is_close (log st) + Z.to_nat 1)%nat
  /\ count (is_sleep short_s) (log r.2)
     = (count (is_sleep short_s) (log st) + Z.to_nat 1)%nat
  /\ count is_open (log r.2) = (count is_open (log st) + Z.to_nat 1)%nat.
Proof.
  apply (send_and_receive_exhausted (cfg := with_utf8 true) LU (lit "rx") (blit "rx") 1).
  - reflexivity.
  - lia.
  - intros [|[|j]] Hj; [reflexivity | reflexivity | cbn in Hj; lia].
Defined.

Lemma send_and_receive_empty_payload_witness :
  let st := session_on [] [Gives reading] in
  let r := send_and_receive (cfg := with_utf8 false) LE (lit "rx") 1 (finding (Gives []) st) in
  r = send_and_receive (cfg := with_utf8 false) LE (lit "rx") 1 (finding (Fails TimeoutError) st)
  /\ (1 <= 0 ->
      r = (Return [],
           logged [PrintErrReading None]
             (attempt (cfg := with_utf8 false) LE (blit "rx") (finding (Gives []) st))))
  /\ (0 < 1 ->
      r = match send_and_receive (cfg := with_utf8 false) LE (lit "rx") (1 - 1)
                  (again (cfg := with_utf8 false) LE (blit "rx") (finding (Gives []) st)) with
          | (Return m, st') => (Return m, logged [PrintSensorInfo m] st')
          | (Raise x, st') => (Raise x, st')
          end).
Proof.
  apply (send_and_receive_empty_payload (cfg := with_utf8 false)
           LE (lit "rx") (blit "rx") [] TimeoutError 1); reflexivity.
Defined.

Lemma return_collected_twice_witness :
  let st := session_on [lit "r,1"; lit "r,2"] [] in
  let r1 := SQM._return_collected st in
  let r2 := SQM._return_collected r1.2 in
  exists d1 d2,
    r1.1 = Return d1 /\ lines_of d1 r1.2 = Some [lit "r,1"; lit "r,2"] /\ buffer r1.2 = []
    /\ r2.1 = Return d2 /\ lines_of d2 r2.2 = Some [] /\ buffer r2.2 = []
    /\ lines_of d1 r2.2 = Some [lit "r,1"; lit "r,2"] /\ d1 <> d2.
Proof.
  apply (return_collected_twice (session_on [lit "r,1"; lit "r,2"] [])).
  exists [lit "r,1"; lit "r,2"]. reflexivity.
Defined.

(** A reading with its line end is stored without it; a reply that
    comes without whitespace around it is returned by the exchange and
    again by the drain that follows. *)
Lemma read_lines_are_collected_witness :
  let cfg := with_utf8 false in
  ((exists pre post,
       reading_text = pre ++ lit "r, 06.70m" ++ post
       /\ Forall (fun c => isspace c = true) pre
       /\ Forall (fun c => isspace c = true) post)
   /\ trimmed (lit "r, 06.70m")
   /\ buffer (SQM._read_buffer (transport := self LE)
                (session_on [lit "r,0"] [Gives reading])).2
      = [lit "r,0"; lit "r, 06.70m"])
  /\ (let r := send_and_receive LU (lit "rx") 0
                 (session_on [lit "r,0"] [Gives (blit "r,1")]) in
      let c := SQM._return_collected r.2 in
      r.1 = Return (lit "r,1")
      /\ exists d, c.1 = Return d
           /\ lines_of d c.2 = Some [lit "r,0"; lit "r,1"]
           /\ lit "r,1" ∈ [lit "r,0"; lit "r,1"]).
Proof.
  cbv zeta. split.
  - destruct (read_lines_are_collected (cfg := with_utf8 false)
                LE (lit "rx") (blit "rx") 0 reading_text
                (session_on [lit "r,0"] [Gives reading]))
      as (Hsplit & Htr & Hb & _).
    + exists [lit "r,0"]. reflexivity.
    + reflexivity.
    + reflexivity.
    + split; [exact Hsplit|]. split; [exact Htr | exact Hb].
  - destruct (read_lines_are_collected (cfg := with_utf8 false)
                LU (lit "rx") (blit "rx") 0 (lit "r,1")
                (session_on [lit "r,0"] [Gives (blit "r,1")]))
      as (_ & _ & _ & Hr & _ & d & Hd & Hls & Hin).
    + exists [lit "r,0"]. reflexivity.
    + reflexivity.
    + reflexivity.
    + split; [exact Hr|]. exists d. split; [exact Hd|]. split; [exact Hls|].
      apply Hin. split; intros c Hc; injection Hc as <-; reflexivity.
Defined.

Lemma stored_lines_are_trimmed_witness :
  let cfg := with_utf8 false in
  let st := session_on [lit "r,0"] [Gives reading] in
  (forall i l, stored_line i = Some l -> trimmed l)
  /\ clean (SQM._read_buffer (transport := self LE) st).2
  /\ clean (SQM._close_connection (transport := self LE) st).2
  /\ clean (send_and_receive LE (lit "rx") 1 st).2
  /\ (exists d, (SQM._return_collected st).1 = Return d
        /\ exists ls, lines_of d (SQM._return_collected st).2 = Some ls
             /\ Forall trimmed ls)
  /\ (forall b p t, encode utf8 (lit "rx") = Return b ->
        next_in LE (wire st) = Gives p -> decode utf8 p = Return t -> t <> [] ->
        (send_and_receive LE (lit "rx") 1 st).1 = Return t).
Proof.
  apply (stored_lines_are_trimmed (cfg := with_utf8 false) LE (lit "rx") 1
           (session_on [lit "r,0"] [Gives reading])).
  - exists [lit "r,0"]. reflexivity.
  - constructor; [|constructor].
    split; intros c Hc; injection Hc as <-; reflexivity.
Defined.

Lemma search_returns_last_sender_witness :
  exists printed,
    SQMLE._search (cfg := with_utf8 false) 0 two_replies
    = Finished (Return (lit "10.0.0.9")) printed.
Proof.
  destruct (search_returns_last_sender (cfg := with_utf8 false) 0 two_replies
              (blit "000000f6") eq_refl) as [H _].
  apply (H (take 3 two_replies) (Poll (Nothing BlockingIOError) 4) []).
  - reflexivity.
  - repeat constructor.
  - reflexivity.
Defined.

Lemma search_stops_at_first_port_witness :
  let r := SQMLU._search (cfg := with_utf8 false) (lit "win32") third_port in
  r.1 = Return (lit "COM2") /\ opened r.2 = [lit "COM0"; lit "COM1"; lit "COM2"].
Proof.
  destruct (search_stops_at_first_port (cfg := with_utf8 false) (lit "win32")
              third_port (blit "ix") eq_refl) as [H _].
  destruct (H [lit "COM0"; lit "COM1"] (lit "COM2")
              (drop 3 (SQMLU.candidate_ports (lit "win32"))))
    as (H1 & _ & H3).
  - reflexivity.
  - repeat constructor.
  - split; [apply H1; reflexivity | apply H3; discriminate].
Defined.

(* ------------------------------------------------------------------ *)
(** * Where the code departs from the specification *)

(** C1 as specified fails: no reply carries the marker, so no reply is
    to be accepted and the search is to fail; the code returns the
    address of the second responder. *)
Lemma search_returns_unmarked_sender :
  SQMLE._search (cfg := with_utf8 false) 0 two_replies
  = Finished (Return (lit "10.0.0.9")) [LookingForReplies]
  /\ Forall (fun p => match found p with
                      | Nothing _ => True
                      | Datagram buf _ _ =>
                        SQMLE.marker_test (cfg := with_utf8 false) buf = Return false
                      end) two_replies.
Proof. split; [reflexivity | repeat constructor]. Qed.

(** C4 as specified fails: the port that cannot be opened is to be
    skipped and the second port returned; the code ends the search with
    the error of the open, the second port never tried. *)
Lemma search_aborts_on_closed_port :
  SQMLU._search (cfg := with_utf8 false) (lit "win32") second_port
  = (Raise SerialException, [SerialOpen (lit "COM0")]).
Proof. reflexivity. Qed.

(** C5 as specified fails: the text [send_and_receive] returns keeps
    the line end of the payload, and a line stored from a network read
    of two lines keeps the newline between them. *)
Lemma send_and_receive_returns_untrimmed :
  let cfg := with_utf8 false in
  let r := send_and_receive LU (lit "rx") 0 (session_on [] [Gives reading]) in
  let two := session_on [] [Gives (blit "r,1" ++ [x0a] ++ blit "r,2" ++ [x0a])] in
  r.1 = Return reading_text
  /\ newline ∈ reading_text
  /\ ~ trimmed reading_text
  /\ buffer (SQM._read_buffer (transport := self LE) two).2
     = [lit "r,1" ++ [newline] ++ lit "r,2"].
Proof.
  cbv zeta. split; [reflexivity|]. split; [|split; [|reflexivity]].
  - unfold reading_text. set_solver.
  - intros [_ H]. specialize (H newline eq_refl). discriminate.
Qed.

(** C7 as specified fails: teardown leaves in the buffer the line it
    read. *)
Lemma close_connection_changes_buffer :
  let cfg := with_utf8 false in
  let st := session_on [] [Gives reading] in
  buffer st = []
  /\ buffer (SQM._close_connection (transport := self LE) st).2 = [lit "r, 06.70m"]
  /\ buffer (SQM._close_connection (transport := self LU) st).2 = [lit "r, 06.70m"].
Proof. cbv zeta. repeat split; reflexivity. Qed.

(* ------------------------------------------------------------------ *)
(** * Further properties of the exchange *)

Section exchange_more.
Context {cfg : configs_ssh}.

Lemma attempt_counts k b st :
  count is_close (log (attempt k b st)) = count is_close (log st)
  /\ count is_open (log (attempt k b st)) = count is_open (log st)
  /\ count is_write (log (attempt k b st)) = S (count is_write (log st)).
Proof.
  rewrite attempt_log, !count_app. destruct k; cbn; repeat split; lia.
Qed.

Lemma again_writes k b st :
  count is_write (log (again k b st)) = S (count is_write (log st)).
Proof.
  rewrite again_log, !count_app, !count_replicate. destruct k; cbn; lia.
Qed.

Lemma count_logged_print p o st :
  p o = false -> count p (log (logged [o] st)) = count p (log st).
Proof. intros Hp. cbn [log logged]. rewrite count_app. cbn. rewrite Hp. cbn. lia. Qed.

(** X1: a command that cannot be encoded makes [send_and_receive] raise
    the error of the encoding at once, whatever [DEBUG] and [tries] are:
    nothing is sent, nothing is read, no reconnect is made and the
    session is left as it was. *)
Theorem send_and_receive_unencodable (k : kind) (s : str) (e : exn) (tries : Z)
    (st : session) :
  encode utf8 s = Raise e ->
  send_and_receive k s tries st = (Raise e, st).
Proof.
  intros Hs. rewrite send_and_receive_base, SQM.send_and_receive_equation_1,
    exchange_prefix, Hs. reflexivity.
Qed.

(** X2: a number of tries below zero is a number of tries of zero: one
    attempt, no reconnect. *)
Theorem send_and_receive_negative_tries (k : kind) (s : str) (tries : Z) (st : session) :
  tries <= 0 ->
  send_and_receive k s tries st = send_and_receive k s 0 st.
Proof.
  intros Hle. rewrite !send_and_receive_base.
  destruct (encode utf8 s) as [b|e] eqn:Hs.
  - destruct (payload_text (next_in k (wire st))) as [t|] eqn:Ht.
    + rewrite (send_and_receive_success k s b tries t), (send_and_receive_success k s b 0 t)
        by assumption. reflexivity.
    + rewrite (send_and_receive_terminal k s b tries), (send_and_receive_terminal k s b 0)
        by (assumption || lia). reflexivity.
  - rewrite (SQM.send_and_receive_equation_1 s tries), exchange_prefix, Hs.
    rewrite (SQM.send_and_receive_equation_1 s 0), exchange_prefix, Hs.
    reflexivity.
Qed.

(** X3: whatever the device sends, one call of [send_and_receive] makes
    at most [tries] reconnects (closes and opens) and sends the command
    at most [tries + 1] times. *)
Theorem send_and_receive_bounded (k : kind) (s : str) (tries : Z) (st : session) :
  let r := send_and_receive k s tries st in
  (count is_close (log r.2) <= count is_close (log st) + Z.to_nat tries)%nat
  /\ (count is_open (log r.2) <= count is_open (log st) + Z.to_nat tries)%nat
  /\ (count is_write (log r.2) <= count is_write (log st) + Z.to_nat tries + 1)%nat.
Proof.
  cbv zeta. rewrite send_and_receive_base.
  remember (Z.to_nat tries) as n eqn:En. revert tries En st.
  induction n as [n IH] using lt_wf_ind. intros tries En st.
  destruct (encode utf8 s) as [b|e] eqn:Hs.
  - destruct (attempt_counts k b st) as (A1 & A2 & A3).
    destruct (payload_text (next_in k (wire st))) as [t|] eqn:Ht.
    + rewrite (send_and_receive_success k s b tries t) by assumption. cbn [snd]. lia.
    + destruct (Z_le_gt_dec tries 0) as [Hle|Hgt].
      * rewrite (send_and_receive_terminal k s b) by assumption. cbn [snd].
        rewrite !count_logged_print by reflexivity. lia.
      * rewrite (send_and_receive_retry k s b) by (assumption || lia).
        destruct (retried_outcome k s (tries - 1) (again k b st)) as [_ E2].
        cbv zeta in E2. rewrite !E2 by reflexivity.
        destruct (IH (Z.to_nat (tries - 1)) ltac:(lia) (tries - 1) eq_refl (again k b st))
          as (I1 & I2 & I3).
        destruct (again_counts k b st) as (G1 & _ & G3).
        pose proof (again_writes k b st) as G4.
        rewrite G1 in I1. rewrite G3 in I2. rewrite G4 in I3.
        assert (Z.to_nat (tries - 1) = (n - 1)%nat) as Hn by lia. rewrite Hn in *.
        lia.
  - rewrite SQM.send_and_receive_equation_1, exchange_prefix, Hs. cbn [snd]. lia.
Qed.

Lemma lstrip_all_space t : Forall (fun c => isspace c = true) t -> lstrip t = [].
Proof.
  induction 1 as [|c t Hc _ IH]; [reflexivity|]. cbn. rewrite Hc. exact IH.
Qed.

(** X5: a payload that decodes to whitespace only, a bare line end say,
    passes the sanity check: [send_and_receive] returns the whitespace
    as the response without a retry, and the read has stored an empty
    line in the buffer. *)
Theorem send_and_receive_blank_line (k : kind) (s : str) (b p : bytes) (t : str)
    (tries : Z) (st : session) :
  encode utf8 s = Return b ->
  next_in k (wire st) = Gives p ->
  decode utf8 p = Return t ->
  t <> [] ->
  Forall (fun c => isspace c = true) t ->
  let r := send_and_receive k s tries st in
  r.1 = Return t
  /\ buffer r.2 = buffer st ++ [[]]
  /\ count is_close (log r.2) = count is_close (log st).
Proof.
  intros Hs Hi Hp Hne Hsp. cbv zeta. rewrite send_and_receive_base.
  assert (Ht : payload_text (next_in k (wire st)) = Some t).
  { rewrite Hi. unfold payload_text. rewrite Hp. destruct (decide (t = [])); congruence. }
  rewrite (send_and_receive_success k s b tries t) by assumption. cbn [fst snd].
  split; [reflexivity|]. split.
  - unfold attempt. rewrite absorb_buffer.
    change (wire (logged _ st)) with (wire st).
    rewrite (stored_line_text _ t Ht). unfold strip.
    rewrite (lstrip_all_space t Hsp). reflexivity.
  - apply attempt_counts.
Qed.

End exchange_more.

Lemma send_and_receive_unencodable_witness :
  send_and_receive (cfg := with_utf8 false) LU [0xD800%N] 5 (session_on [] [Gives reading])
  = (Raise UnicodeEncodeError, session_on [] [Gives reading]).
Proof.
  apply (send_and_receive_unencodable (cfg := with_utf8 false)). reflexivity.
Defined.

Lemma send_and_receive_negative_tries_witness :
  send_and_receive (cfg := with_utf8 true) LE (lit "rx") (-3) (session_on [] [])
  = send_and_receive (cfg := with_utf8 true) LE (lit "rx") 0 (session_on [] []).
Proof.
  apply (send_and_receive_negative_tries (cfg := with_utf8 true)). lia.
Defined.

Lemma send_and_receive_blank_line_witness :
  let st := session_on [lit "r,0"] [Gives [x0d; x0a]] in
  let r := send_and_receive (cfg := with_utf8 false) LU (lit "rx") 3 st in
  r.1 = Return [13%N; 10%N]
  /\ buffer r.2 = buffer st ++ [[]]
  /\ count is_close (log r.2) = count is_close (log st).
Proof.
  apply (send_and_receive_blank_line (cfg := with_utf8 false) LU (lit "rx") (blit "rx")
           [x0d; x0a]).
  - reflexivity.
  - reflexivity.
  - reflexivity.
  - discriminate.
  - repeat constructor.
Defined.

(* ------------------------------------------------------------------ *)
(** * Further properties of the buffer *)

Section buffer_more.
Context {cfg : configs_ssh}.

Lemma clear_buffer_eq k st :
  SQM._clear_buffer (T := self k) st
  = (Return tt,
     logged [PrintCleared (read_value (next_in k (wire st)))]
       (absorb k (next_in k (wire st)) (logged [PrintClearing] st))).
Proof.
  unfold SQM._clear_buffer, mbind, M_bind, call. rewrite read_buffer_eq. reflexivity.
Qed.

Lemma listen_step k n st :
  SQM._listen (T := self k) (S n) st
  = SQM._listen (T := self k) n (absorb k (next_in k (wire st)) (logged [Sleep short_s] st)).
Proof.
  cbn [SQM._listen]. unfold mbind, M_bind, sleep, call. rewrite read_buffer_eq. reflexivity.
Qed.

Lemma listen_preserves k (P : session -> Prop) :
  kept_by_reads k P -> forall n st, P st -> P (SQM._listen (T := self k) n st).2.
Proof.
  intros [Hl Ha] n. induction n as [|n IH]; intros st Hp; [exact Hp|].
  rewrite listen_step. apply IH, Ha, Hl, Hp.
Qed.

Lemma methods_preserve k (P : session -> Prop) s tries n st :
  kept_by_reads k P -> P st ->
  P (SQM._read_buffer (transport := self k) st).2
  /\ P (SQM._close_connection (transport := self k) st).2
  /\ P (SQM._reset_device (T := self k) st).2
  /\ P (SQM._clear_buffer (T := self k) st).2
  /\ P (send_and_receive k s tries st).2
  /\ P (SQM._listen (T := self k) n st).2.
Proof.
  intros HP Hp. pose proof HP as [Hl Ha].
  rewrite read_buffer_eq, close_connection_eq, reset_device_eq, clear_buffer_eq.
  cbn [snd]. repeat split.
  - by apply Ha.
  - apply Hl, hear_out_preserves; [exact Ha | by apply Hl].
  - unfold reset. apply Hl, Hl, hear_out_preserves; [exact Ha | by apply Hl].
  - by apply Hl, Ha, Hl.
  - by apply send_and_receive_preserves.
  - by apply listen_preserves.
Qed.

(** X6: reads, teardown, reset, the clearing read, an exchange and the
    listener only ever append to the buffer: the lines it held are still
    there, in front and in their order. *)
Theorem buffer_only_grows (k : kind) (s : str) (tries : Z) (n : nat) (st : session) :
  buffer st `prefix_of` buffer (SQM._read_buffer (transport := self k) st).2
  /\ buffer st `prefix_of` buffer (SQM._close_connection (transport := self k) st).2
  /\ buffer st `prefix_of` buffer (SQM._reset_device (T := self k) st).2
  /\ buffer st `prefix_of` buffer (SQM._clear_buffer (T := self k) st).2
  /\ buffer st `prefix_of` buffer (send_and_receive k s tries st).2
  /\ buffer st `prefix_of` buffer (SQM._listen (T := self k) n st).2.
Proof.
  apply (methods_preserve k (fun st' => buffer st `prefix_of` buffer st')); [|reflexivity].
  split.
  - intros ops st' Hp. exact Hp.
  - intros i st' Hp. rewrite absorb_buffer. by apply prefix_app_r.
Qed.

(** X7: the list a drain returned is a snapshot: reads, teardown, reset,
    an exchange or the listener that come after it append to
    [self.data] and leave the returned list as it was. *)
Theorem drained_list_is_a_snapshot (k : kind) (s : str) (tries : Z) (n : nat)
    (st : session) :
  wf st ->
  let c := SQM._return_collected st in
  exists d, c.1 = Return d
    /\ lines_of d (SQM._read_buffer (transport := self k) c.2).2 = Some (buffer st)
    /\ lines_of d (SQM._close_connection (transport := self k) c.2).2 = Some (buffer st)
    /\ lines_of d (SQM._reset_device (T := self k) c.2).2 = Some (buffer st)
    /\ lines_of d (SQM._clear_buffer (T := self k) c.2).2 = Some (buffer st)
    /\ lines_of d (send_and_receive k s tries c.2).2 = Some (buffer st)
    /\ lines_of d (SQM._listen (T := self k) n c.2).2 = Some (buffer st).
Proof.
  intros Hwf. cbv zeta.
  destruct (return_collected_eq st Hwf) as (R & Hne & L & _ & _ & D & _). cbv zeta in *.
  set (c := SQM._return_collected st) in *.
  set (d := fresh (dom (store st))) in *.
  exists d. split; [exact R|].
  assert (HP : kept_by_reads k
                 (fun st' => data st' = data st /\ lines_of d st' = Some (buffer st))).
  { split.
    - intros ops st' Hp. exact Hp.
    - intros i st' [Hd Hl]. split; [exact Hd|].
      unfold lines_of, absorb in *. cbn [store data].
      destruct (stored_line i); [|exact Hl].
      rewrite lookup_insert_ne by congruence. exact Hl. }
  destruct (methods_preserve k _ s tries n c.2 HP (conj D L))
    as ((_ & H1) & (_ & H2) & (_ & H3) & (_ & H4) & (_ & H5) & (_ & H6)).
  repeat split; assumption.
Qed.

(** X9: [_clear_buffer] makes one read, between its two prints, and
    does not drop what it read: a decodable, non-empty payload is
    appended, stripped, to the buffer and the next drain returns it;
    payloads behind the first stay on the wire. *)
Theorem clear_buffer_keeps_the_line (k : kind) (st : session) :
  wf st ->
  let i := next_in k (wire st) in
  let r := SQM._clear_buffer (T := self k) st in
  let c := SQM._return_collected r.2 in
  r.1 = Return tt
  /\ log r.2 = log st ++ [PrintClearing; read_op k; PrintCleared (read_value i)]
  /\ wire r.2 = tail (wire st)
  /\ exists d, c.1 = Return d
       /\ lines_of d c.2 = Some (buffer st ++ option_list (stored_line i)).
Proof.
  intros Hwf. cbv zeta. rewrite clear_buffer_eq. cbn [fst snd].
  split; [reflexivity|]. split.
  { cbn [log logged absorb]. rewrite <- !app_assoc. reflexivity. }
  split; [reflexivity|].
  set (st1 := logged _ (absorb k _ _)).
  assert (Hw : wf st1) by (apply absorb_wf; exact Hwf).
  destruct (return_collected_eq st1 Hw) as (R & _ & L & _). cbv zeta in R, L.
  eexists. split; [exact R|]. rewrite L. f_equal.
  unfold st1, buffer at 1. cbn [store data logged].
  change (default [] (store ?s !! data ?s)) with (buffer s).
  rewrite absorb_buffer. reflexivity.
Qed.

End buffer_more.

Lemma drained_list_is_a_snapshot_witness :
  let cfg := with_utf8 false in
  let c := SQM._return_collected (session_on [lit "r,0"] [Gives reading]) in
  exists d, c.1 = Return d
    /\ lines_of d (SQM._read_buffer (transport := self LE) c.2).2 = Some [lit "r,0"]
    /\ lines_of d (SQM._close_connection (transport := self LE) c.2).2 = Some [lit "r,0"]
    /\ lines_of d (SQM._reset_device (T := self LE) c.2).2 = Some [lit "r,0"]
    /\ lines_of d (SQM._clear_buffer (T := self LE) c.2).2 = Some [lit "r,0"]
    /\ lines_of d (send_and_receive LE (lit "rx") 1 c.2).2 = Some [lit "r,0"]
    /\ lines_of d (SQM._listen (T := self LE) 2 c.2).2 = Some [lit "r,0"].
Proof.
  apply (drained_list_is_a_snapshot (cfg := with_utf8 false) LE (lit "rx") 1 2
           (session_on [lit "r,0"] [Gives reading])).
  exists [lit "r,0"]. reflexivity.
Defined.

Lemma clear_buffer_keeps_the_line_witness :
  let cfg := with_utf8 false in
  let st := session_on [] [Gives reading; Gives reading] in
  let r := SQM._clear_buffer (T := self LU) st in
  let c := SQM._return_collected r.2 in
  r.1 = Return tt
  /\ log r.2 = [PrintClearing; SerialReadline; PrintCleared (Some reading)]
  /\ wire r.2 = [Gives reading]
  /\ exists d, c.1 = Return d /\ lines_of d c.2 = Some [lit "r, 06.70m"].
Proof.
  apply (clear_buffer_keeps_the_line (cfg := with_utf8 false) LU
           (session_on [] [Gives reading; Gives reading])).
  exists []. reflexivity.
Defined.

(* ------------------------------------------------------------------ *)
(** * The listener *)

Section listener.
Context {cfg : configs_ssh}.

Lemma listen_spec k n st :
  let r := SQM._listen (T := self k) n st in
  r.1 = Return tt
  /\ buffer r.2 = buffer st ++ omap stored_line (overheard k n (wire st))
  /\ wire r.2 = drop n (wire st)
  /\ log r.2 = log st ++ listen_calls k n
  /\ (wf st -> wf r.2).
Proof.
  cbv zeta. revert st. induction n as [|n IH]; intros st.
  - cbn. rewrite !app_nil_r, drop_0. repeat split; tauto.
  - rewrite listen_step.
    destruct (IH (absorb k (next_in k (wire st)) (logged [Sleep short_s] st)))
      as (R & B & W & L & F).
    rewrite R, B, W, L. split; [reflexivity|]. split; [|split; [|split]].
    + rewrite absorb_buffer, <- app_assoc. f_equal.
      change (wire (absorb _ _ _)) with (tail (wire st)).
      change (wire (logged _ st)) with (wire st).
      cbn [overheard].
      destruct (stored_line (next_in k (wire st))) eqn:E; cbn; rewrite E; reflexivity.
    + cbn [wire absorb logged]. destruct (wire st); [destruct n|]; reflexivity.
    + cbn [log absorb logged listen_calls]. rewrite <- !app_assoc. reflexivity.
    + intros Hwf. apply F, absorb_wf. exact Hwf.
Qed.

Lemma client_to_rpi_eq st :
  wf st ->
  exists d, (SQM.client_to_rpi st).1 = Return d
    /\ lines_of d (SQM.client_to_rpi st).2 = Some (buffer st).
Proof.
  intros Hwf. destruct (return_collected_eq st Hwf) as (R & _ & L & _). cbv zeta in R, L.
  unfold SQM.client_to_rpi, mbind, M_bind.
  destruct (SQM._return_collected st) as [[d|e] st'] eqn:E;
    cbn [fst snd] in *; [|discriminate].
  injection R as ->. eexists. split; [reflexivity | exact L].
Qed.

(** X10: the listener sleeps the short delay before each of its reads
    and stores what the reads find: after [n] passes the buffer has
    grown by the stripped texts of the decodable, non-empty payloads
    among the first [n] reads, in the order they came, and
    [client_to_rpi] returns them behind the lines the buffer held. *)
Theorem listen_collects_in_order (k : kind) (n : nat) (st : session) :
  wf st ->
  let r := SQM._listen (T := self k) n st in
  let c := SQM.client_to_rpi r.2 in
  r.1 = Return tt
  /\ log r.2 = log st ++ listen_calls k n
  /\ wire r.2 = drop n (wire st)
  /\ exists d, c.1 = Return d
       /\ lines_of d c.2
          = Some (buffer st ++ omap stored_line (overheard k n (wire st))).
Proof.
  intros Hwf. cbv zeta.
  destruct (listen_spec k n st) as (R & B & W & L & F). cbv zeta in *.
  split; [exact R|]. split; [exact L|]. split; [exact W|].
  destruct (client_to_rpi_eq _ (F Hwf)) as (d & R' & L').
  exists d. split; [exact R'|]. rewrite L', B. reflexivity.
Qed.

(** X11: [rpi_to_client] sends and does not read; the reply is picked
    up by the listener and handed out by [client_to_rpi]: after the
    send, one pass of the listener and the drain, the returned list ends
    with the stripped reply, and the calls made are the print, the
    write, the short delay and one read. *)
Theorem reply_reaches_client (k : kind) (s : str) (b : bytes) (t : str) (st : session) :
  wf st ->
  encode utf8 s = Return b ->
  payload_text (next_in k (wire st)) = Some t ->
  let r1 := SQM.rpi_to_client (T := self k) s st in
  let r2 := SQM._listen (T := self k) 1 r1.2 in
  let c := SQM.client_to_rpi r2.2 in
  r1.1 = Return tt /\ wire r1.2 = wire st /\ buffer r1.2 = buffer st
  /\ log r2.2 = log st ++ [PrintSending s; write_op k b; Sleep short_s; read_op k]
  /\ exists d, c.1 = Return d /\ lines_of d c.2 = Some (buffer st ++ [strip t]).
Proof.
  intros Hwf Hs Ht. cbv zeta.
  assert (E1 : SQM.rpi_to_client (T := self k) s st
               = (Return tt, logged [PrintSending s; write_op k b] st)).
  { unfold SQM.rpi_to_client, mbind, M_bind, call. rewrite send_command_eq, Hs.
    rewrite logged_logged. reflexivity. }
  rewrite E1. cbn [fst snd]. split; [reflexivity|]. split; [reflexivity|].
  split; [reflexivity|].
  set (st1 := logged [PrintSending s; write_op k b] st).
  destruct (listen_spec k 1 st1) as (_ & B & _ & L & F). cbv zeta in *.
  split.
  { rewrite L. unfold st1. cbn [log logged listen_calls]. rewrite <- app_assoc.
    reflexivity. }
  destruct (client_to_rpi_eq _ (F Hwf)) as (d & R' & L').
  exists d. split; [exact R'|]. rewrite L', B.
  change (wire st1) with (wire st). change (buffer st1) with (buffer st).
  cbn. rewrite (stored_line_text _ t Ht). reflexivity.
Qed.

(** X12: [start_continuous_read] binds [self.data] to a new list: the
    lines not yet drained are out of reach of every later drain, and a
    list an earlier drain returned keeps its lines; a drain after [n]
    passes of the listener returns what the listener heard and nothing
    else. *)
Theorem continuous_read_starts_empty (k : kind) (n : nat) (d0 : loc) (ls : list str)
    (st : session) :
  wf st ->
  lines_of d0 st = Some ls ->
  let r0 := SQM.start_continuous_read st in
  let r := SQM._listen (T := self k) n r0.2 in
  let c := SQM.client_to_rpi r.2 in
  r0.1 = Return tt /\ buffer r0.2 = [] /\ data r0.2 <> data st
  /\ lines_of d0 r0.2 = Some ls
  /\ exists d, c.1 = Return d
       /\ lines_of d c.2 = Some (omap stored_line (overheard k n (wire st))).
Proof.
  intros Hwf Hd0. cbv zeta. unfold SQM.start_continuous_read, data_new. cbn [fst snd].
  set (d := fresh (dom (store st))).
  set (st1 := Session _ _ _ _ _).
  assert (Hd : d <> data st).
  { intros E. apply (is_fresh (dom (store st))). fold d. rewrite E. by apply elem_of_dom. }
  assert (Hd' : d <> d0).
  { intros E. apply (is_fresh (dom (store st))). fold d. rewrite E.
    apply elem_of_dom. unfold lines_of in Hd0. rewrite Hd0. eauto. }
  assert (Hb : buffer st1 = []).
  { unfold buffer, st1. cbn [store data]. rewrite lookup_insert_eq. reflexivity. }
  assert (Hw : wf st1).
  { unfold wf, st1. cbn [store data]. rewrite lookup_insert_eq. eauto. }
  split; [reflexivity|]. split; [exact Hb|]. split; [exact Hd|]. split.
  { unfold lines_of, st1. cbn [store]. rewrite lookup_insert_ne by exact Hd'. exact Hd0. }
  destruct (listen_spec k n st1) as (_ & B & _ & _ & F). cbv zeta in *.
  destruct (client_to_rpi_eq _ (F Hw)) as (x & R & L).
  exists x. split; [exact R|]. rewrite L, B, Hb. reflexivity.
Qed.

End listener.

Lemma listen_collects_in_order_witness :
  let cfg := with_utf8 false in
  let st := session_on [lit "r,0"] [Gives reading; Gives [xff]; Gives []; Gives (blit "r,1")] in
  let r := SQM._listen (T := self LU) 5 st in
  let c := SQM.client_to_rpi r.2 in
  r.1 = Return tt
  /\ log r.2 = log st ++ listen_calls LU 5
  /\ wire r.2 = []
  /\ exists d, c.1 = Return d
       /\ lines_of d c.2 = Some [lit "r,0"; lit "r, 06.70m"; lit "r,1"].
Proof.
  apply (listen_collects_in_order (cfg := with_utf8 false) LU 5
           (session_on [lit "r,0"]
              [Gives reading; Gives [xff]; Gives []; Gives (blit "r,1")])).
  exists [lit "r,0"]. reflexivity.
Defined.

Lemma reply_reaches_client_witness :
  let cfg := with_utf8 false in
  let st := session_on [] [Gives reading] in
  let r1 := SQM.rpi_to_client (T := self LE) (lit "rx") st in
  let r2 := SQM._listen (T := self LE) 1 r1.2 in
  let c := SQM.client_to_rpi r2.2 in
  r1.1 = Return tt /\ wire r1.2 = wire st /\ buffer r1.2 = buffer st
  /\ log r2.2 = log st ++ [PrintSending (lit "rx"); write_op LE (blit "rx");
                            Sleep short_s; read_op LE]
  /\ exists d, c.1 = Return d /\ lines_of d c.2 = Some (buffer st ++ [strip reading_text]).
Proof.
  apply (reply_reaches_client (cfg := with_utf8 false) LE (lit "rx") (blit "rx")
           reading_text (session_on [] [Gives reading])).
  - exists []. reflexivity.
  - reflexivity.
  - reflexivity.
Defined.

Lemma continuous_read_starts_empty_witness :
  let cfg := with_utf8 false in
  let st := session_on [lit "r,0"] [Gives reading] in
  let r0 := SQM.start_continuous_read st in
  let r := SQM._listen (T := self LE) 2 r0.2 in
  let c := SQM.client_to_rpi r.2 in
  r0.1 = Return tt /\ buffer r0.2 = [] /\ data r0.2 <> data st
  /\ lines_of 1%positive r0.2 = Some [lit "r,0"]
  /\ exists d, c.1 = Return d /\ lines_of d c.2 = Some [lit "r, 06.70m"].
Proof.
  apply (continuous_read_starts_empty (cfg := with_utf8 false) LE 2 1%positive
           [lit "r,0"] (session_on [lit "r,0"] [Gives reading])).
  - exists [lit "r,0"]. reflexivity.
  - reflexivity.
Defined.

(* ------------------------------------------------------------------ *)
(** * Further properties of the network search *)

Section network_search_more.
Context {cfg : configs_ssh}.

Lemma reply_loop_prints_nothing starttime script addr printed :
  match SQMLE.reply_loop starttime script addr printed with
  | Broke _ printed' | StillPolling _ printed' => printed' = printed
  end.
Proof.
  revert addr. induction script as [|p script IH]; intros addr; cbn; [reflexivity|].
  destruct (found p) as [e|buf host port].
  - destruct (SQMLE.window_over starttime (clock p)); [reflexivity | apply IH].
  - pose proof (marker_test_never buf) as Hm.
    destruct (SQMLE.marker_test buf) as [[|]|e]; [congruence | apply IH |].
    destruct (SQMLE.window_over starttime (clock p)); [reflexivity | apply IH].
Qed.

Lemma first_end starttime script :
  Forall (fun q => ends_loop starttime q = false) script
  \/ exists before p after,
       script = before ++ p :: after
       /\ Forall (fun q => ends_loop starttime q = false) before
       /\ ends_loop starttime p = true.
Proof.
  induction script as [|q script [IH|(before & p & after & -> & Hb & Hp)]].
  - left. constructor.
  - destruct (ends_loop starttime q) eqn:E.
    + right. exists [], q, script. repeat split; [constructor | exact E].
    + left. constructor; assumption.
  - destruct (ends_loop starttime q) eqn:E.
    + right. exists [], q, (before ++ p :: after). repeat split; [constructor | exact E].
    + right. exists (q :: before), p, after. repeat split; [constructor; assumption | exact Hp].
Qed.

Lemma search_outcome starttime script payload :
  encode hex (lit "000000f6") = Return payload ->
  (Forall (fun q => ends_loop starttime q = false) script
   /\ SQMLE._search starttime script = Unfinished)
  \/ exists before p after printed,
       script = before ++ p :: after
       /\ SQMLE._search starttime script
          = Finished (match last_sender (before ++ [p]) with
                      | Some host => Return host
                      | None => Raise AssertionError
                      end) printed.
Proof.
  intros Hp. destruct (first_end starttime script) as [Hs|(before & p & after & -> & Hb & He)].
  - left. split; [exact Hs|]. unfold SQMLE._search. rewrite Hp.
    destruct (reply_loop_polling starttime script None [LookingForReplies] Hs) as (a & pr & E).
    rewrite E. reflexivity.
  - right. exists before, p, after. unfold SQMLE._search. rewrite Hp.
    destruct (reply_loop_skip starttime before (p :: after) None [LookingForReplies] Hb)
      as [pr E].
    rewrite E, (reply_loop_break _ _ _ _ _ He).
    pose proof (remember_last_sender None (before ++ [p])) as L.
    unfold remember in L. rewrite foldl_app in L. fold (remember None before) in L.
    fold (remember (remember None before) [p]) in L.
    destruct (remember (remember None before) [p]) as [[host port]|];
      destruct (last_sender (before ++ [p])); cbn in L; try discriminate.
    + injection L as ->. eauto.
    + eauto.
Qed.

(** X13: the search never prints a "Received from" line: the marker
    test compares one character with the two of ["f7"] and cannot hold,
    so all a finished search has printed is the opening line and, when
    it fails, the line of the error. *)
Theorem search_never_reports_a_device (starttime : Q) (script : list poll) :
  match SQMLE._search starttime script with
  | Finished _ printed =>
    printed = [] \/ printed = [LookingForReplies]
    \/ printed = [LookingForReplies; DeviceNotFound]
  | Unfinished => True
  end.
Proof.
  unfold SQMLE._search. destruct (encode hex (lit "000000f6")) as [payload|e]; [|by left].
  pose proof (reply_loop_prints_nothing starttime script None [LookingForReplies]) as P.
  destruct (SQMLE.reply_loop starttime script None [LookingForReplies])
    as [[[host port]|] printed|a printed]; subst; auto.
Qed.

(** X14: a search that returns an address returns the source address
    of a datagram it received, and the only error a search raises once
    the probe is out is the assertion error of "Device not found". *)
Theorem search_result_is_a_sender (starttime : Q) (script : list poll) (payload : bytes)
    (r : result str) (printed : list line) :
  encode hex (lit "000000f6") = Return payload ->
  SQMLE._search starttime script = Finished r printed ->
  match r with
  | Return host => exists p, p ∈ script /\ sender p = Some host
  | Raise e => e = AssertionError
  end.
Proof.
  intros Hp Hr.
  destruct (search_outcome starttime script payload Hp)
    as [[_ E]|(before & p & after & pr & -> & E)]; rewrite E in Hr; [discriminate|].
  injection Hr as <- _.
  destruct (last_sender (before ++ [p])) as [host|] eqn:L; [|reflexivity].
  unfold last_sender in L. apply last_Some_elem_of, list_elem_of_omap in L.
  destruct L as (q & Hq & Hs). exists q. split; [|exact Hs].
  rewrite elem_of_app in Hq. rewrite elem_of_app, elem_of_cons.
  destruct Hq as [Hq|Hq]; [by left|]. apply list_elem_of_singleton in Hq. auto.
Qed.

(** X15: the search is never over within its window, a device that
    answers at once notwithstanding, and not while every pass receives
    a datagram that decodes and is long enough: it ends only on a pass
    that raises with more than 3 seconds on the clock; at 3 seconds
    sharp it goes on. *)
Theorem search_goes_on (starttime : Q) (script : list poll) (payload : bytes) :
  encode hex (lit "000000f6") = Return payload ->
  Forall (fun p => raises p = false \/ (clock p - starttime <= 3)%Q) script ->
  SQMLE._search starttime script = Unfinished.
Proof.
  intros Hp Hs.
  destruct (search_outcome starttime script payload Hp)
    as [[_ E]|(before & p & after & pr & -> & E)]; [exact E|].
  exfalso.
  destruct (first_end starttime (before ++ p :: after))
    as [Hall|(b' & q & a' & Eq & Hb & Hq)].
  - (* the search cannot have finished *)
    unfold SQMLE._search in E. rewrite Hp in E.
    destruct (reply_loop_polling starttime _ None [LookingForReplies] Hall) as (a & pr' & E').
    rewrite E' in E. discriminate.
  - rewrite Eq in Hs. apply Forall_app in Hs as [_ Hs]. inversion Hs as [|? ? Hq' _]; subst.
    unfold ends_loop in Hq. apply andb_true_iff in Hq as [Hr Hw].
    destruct Hq' as [Hq'|Hq']; [congruence|].
    unfold SQMLE.window_over in Hw. apply negb_true_iff in Hw.
    apply Qle_bool_iff in Hq'. congruence.
Qed.

End network_search_more.

Lemma search_result_is_a_sender_witness :
  exists p, p ∈ two_replies /\ sender p = Some (lit "10.0.0.9").
Proof.
  apply (search_result_is_a_sender (cfg := with_utf8 false) 0 two_replies (blit "000000f6")
           (Return (lit "10.0.0.9")) [LookingForReplies]); reflexivity.
Defined.

Lemma search_goes_on_witness :
  SQMLE._search (cfg := with_utf8 false) 10
    [ Poll (Datagram (blit "printer at your service") (lit "10.0.0.7") 30718) 11;
      Poll (Nothing BlockingIOError) 13;
      Poll (Datagram (blit "camera at your service") (lit "10.0.0.9") 30718) 99 ]
  = Unfinished.
Proof.
  apply (search_goes_on (cfg := with_utf8 false) 10 _ (blit "000000f6")).
  - reflexivity.
  - constructor; [left; reflexivity|].
    constructor; [right; discriminate|].
    constructor; [left; reflexivity | constructor].
Defined.

(* ------------------------------------------------------------------ *)
(** * Further properties of the serial search *)

Section serial_search_more.
Context {cfg : configs_ssh}.


Lemma probe_ports_found env ports calls port calls' :
  SQMLU.probe_ports env ports calls = (Return (Some port), calls') ->
  exists before after,
    ports = before ++ port :: after
    /\ Forall (fun q => verdict (env q) = Return false) before
    /\ verdict (env port) = Return true.
Proof.
  revert calls. induction ports as [|q ports IH]; intros calls; cbn [SQMLU.probe_ports].
  - discriminate.
  - unfold verdict at 2. destruct (env q) as [e|reply] eqn:Eq; [discriminate|].
    destruct (encode utf8 (lit "ix")) as [ix|e]; [|discriminate].
    destruct (decode utf8 reply) as [[|c t]|e] eqn:Ed; try discriminate.
    destruct (bool_decide ([c] = lit "i")) eqn:Ec.
    + intros [= <- <-]. exists [], ports. repeat split; [constructor|].
      unfold verdict. rewrite Eq, Ed, Ec. reflexivity.
    + intros Hr. destruct (IH _ Hr) as (before & after & -> & Hb & Hp).
      exists (q :: before), after. repeat split; [|exact Hp].
      constructor; [|exact Hb]. unfold verdict. rewrite Eq, Ed, Ec. reflexivity.
Qed.


Lemma search_trace platform env :
  let r := SQMLU._search platform env in
  let p := SQMLU.probe_ports env (SQMLU.candidate_ports platform) [] in
  r.2 = p.2
  /\ (forall port, r.1 = Return port <-> p.1 = Return (Some port)).
Proof.
  cbv zeta. unfold SQMLU._search.
  destruct (SQMLU.probe_ports env (SQMLU.candidate_ports platform) [])
    as [[[port|]|e] calls]; cbn; split; try reflexivity; intros q; split; congruence.
Qed.

(** X16: on a platform whose name is neither ["linux2"] nor ["win32"]
    the search has no candidate: it raises the assertion error of
    "Device not found" without opening a port. *)
Theorem search_knows_two_platforms (platform : str) (env : str -> port_reply) :
  platform <> lit "linux2" ->
  platform <> lit "win32" ->
  SQMLU._search platform env = (Raise AssertionError, []).
Proof.
  intros H1 H2. unfold SQMLU._search, SQMLU.candidate_ports.
  rewrite !bool_decide_eq_false_2 by assumption. reflexivity.
Qed.

(** X17: the port a search returns is one of its candidates, its reply
    starts with the marker, and every candidate before it answered with
    a text that starts with something else. *)
Theorem search_returns_a_marked_port (platform : str) (env : str -> port_reply)
    (port : str) :
  (SQMLU._search platform env).1 = Return port ->
  exists before after,
    SQMLU.candidate_ports platform = before ++ port :: after
    /\ Forall (fun q => verdict (env q) = Return false) before
    /\ verdict (env port) = Return true.
Proof.
  intros Hr. destruct (search_trace platform env) as [_ E]. cbv zeta in E.
  apply E in Hr.
  destruct (SQMLU.probe_ports env (SQMLU.candidate_ports platform) []) as [r calls] eqn:Ep.
  cbn in Hr. subst r. exact (probe_ports_found _ _ _ _ _ Ep).
Qed.


End serial_search_more.

Lemma search_knows_two_platforms_witness :
  SQMLU._search (cfg := with_utf8 false) (lit "linux") third_port
  = (Raise AssertionError, []).
Proof.
  apply (search_knows_two_platforms (cfg := with_utf8 false)); discriminate.
Defined.

Lemma search_returns_a_marked_port_witness :
  exists before after,
    SQMLU.candidate_ports (lit "win32") = before ++ lit "COM2" :: after
    /\ Forall (fun q => verdict (cfg := with_utf8 false) (third_port q) = Return false) before
    /\ verdict (cfg := with_utf8 false) (third_port (lit "COM2")) = Return true.
Proof.
  apply (search_returns_a_marked_port (cfg := with_utf8 false) (lit "win32") third_port).
  reflexivity.
Defined.

(* ------------------------------------------------------------------ *)
(** * The constructors *)

Section constructors.
Context {cfg : configs_ssh}.


Lemma serial_init_eq device_addr platform env w :
  SQMLU.__init__ device_addr platform env (unbuilt w)
  = let st1 := Session device_addr {[ fresh (dom (∅ : gmap loc (list str))) := [] ]}
                 (fresh (dom (∅ : gmap loc (list str)))) w [SerialOpen device_addr] in
    match env device_addr with
    | Answers _ => SQM._clear_buffer (T := self LU) st1
    | CannotOpen _ =>
      match SQMLU._search platform env with
      | (Raise e, calls) => (Raise e, logged calls st1)
      | (Return found_addr, calls) =>
        let st2 := Session found_addr (store st1) (data st1) w
                     ((log st1 ++ calls) ++ [SerialOpen found_addr]) in
        match env found_addr with
        | Answers _ => SQM._clear_buffer (T := self LU) st2
        | CannotOpen e => (Raise e, st2)
        end
      end
    end.
Proof.
  unfold SQMLU.__init__, mbind, M_bind, try_except, data_new, set_addr,
    SQMLU.start_connection_in, mbind, M_bind, self_addr, call, calls_made, raise, mret, M_ret.
  cbn [addr store data wire log unbuilt logged fst snd].
  destruct (env device_addr) as [e|reply]; [|reflexivity].
  destruct (SQMLU._search platform env) as [[found_addr|e'] calls]; [|reflexivity].
  cbn [addr store data wire log unbuilt logged fst snd].
  destruct (env found_addr); reflexivity.
Qed.

(** X19: when the configured address opens, the constructor of the
    serial session probes no port: it opens that address, makes the one
    read of [_clear_buffer], and a line the device had pending is in the
    buffer of the new session. *)
Theorem serial_init_at_configured_address (device_addr platform : str)
    (env : str -> port_reply) (reply : bytes) (w : list incoming) :
  env device_addr = Answers reply ->
  let r := SQMLU.__init__ device_addr platform env (unbuilt w) in
  let i := next_in LU w in
  r.1 = Return tt
  /\ addr r.2 = device_addr
  /\ log r.2 = [SerialOpen device_addr; PrintClearing; SerialReadline;
                PrintCleared (read_value i)]
  /\ wire r.2 = tail w
  /\ buffer r.2 = option_list (stored_line i).
Proof.
  intros He. cbv zeta. rewrite serial_init_eq. cbv zeta. rewrite He, clear_buffer_eq.
  cbn [fst snd]. repeat split.
  unfold buffer at 1. cbn [store data logged].
  change (default [] (store ?s !! data ?s)) with (buffer s).
  rewrite absorb_buffer. unfold buffer. cbn [store data logged].
  rewrite lookup_singleton_eq. reflexivity.
Qed.


(** X21: when the configured address cannot be opened and the search
    fails, the constructor raises the error of the search: no
    connection is opened after it, the session keeps the configured
    address, and nothing is read from the device. *)
Theorem serial_init_fails_with_the_search (device_addr platform : str)
    (env : str -> port_reply) (e e' : exn) (w : list incoming) :
  env device_addr = CannotOpen e ->
  (SQMLU._search platform env).1 = Raise e' ->
  let r := SQMLU.__init__ device_addr platform env (unbuilt w) in
  r.1 = Raise e'
  /\ addr r.2 = device_addr
  /\ log r.2 = SerialOpen device_addr :: (SQMLU._search platform env).2
  /\ wire r.2 = w
  /\ buffer r.2 = [].
Proof.
  intros He Hs. cbv zeta. rewrite serial_init_eq. cbv zeta. rewrite He.
  destruct (SQMLU._search platform env) as [r calls]. cbn [fst snd] in *. subst r.
  cbn [fst snd addr log wire logged]. repeat split.
Qed.

Lemma network_init_eq device_addr reach starttime script w :
  SQMLE.__init__ device_addr reach starttime script (unbuilt w)
  = let st1 := Session device_addr {[ fresh (dom (∅ : gmap loc (list str))) := [] ]}
                 (fresh (dom (∅ : gmap loc (list str)))) w
                 [SockStream; SockSetTimeout; SockConnect device_addr] in
    match reach device_addr with
    | None => Some (SQM._clear_buffer (T := self LE) st1)
    | Some _ =>
      match SQMLE._search starttime script with
      | Unfinished => None
      | Finished (Raise e) _ => Some (Raise e, st1)
      | Finished (Return found_addr) _ =>
        let st2 := Session found_addr (store st1) (data st1) w
                     (log st1 ++ [SockStream; SockSetTimeout; SockConnect found_addr]) in
        match reach found_addr with
        | None => Some (SQM._clear_buffer (T := self LE) st2)
        | Some e => Some (Raise e, st2)
        end
      end
    end.
Proof.
  unfold SQMLE.__init__, mbind, M_bind, data_new, set_addr,
    SQMLE.start_connection_via, mbind, M_bind, self_addr, call, raise, mret, M_ret.
  cbn [addr store data wire log unbuilt logged fst snd app].
  destruct (reach device_addr) as [e|]; [|reflexivity].
  destruct (SQMLE._search starttime script) as [[found_addr|e'] printed|]; try reflexivity.
  cbn [addr store data wire log unbuilt logged fst snd app].
  destruct (reach found_addr); reflexivity.
Qed.

(** X22: when the configured address accepts the connection, the
    constructor of the network session runs no search, however the
    network would answer one: it connects there, makes the one read of
    [_clear_buffer], and a payload the device had pending is in the
    buffer of the new session. *)
Theorem network_init_at_configured_address (device_addr : str)
    (reach : str -> option exn) (starttime : Q) (script : list poll)
    (w : list incoming) :
  reach device_addr = None ->
  exists r,
    SQMLE.__init__ device_addr reach starttime script (unbuilt w) = Some r
    /\ r.1 = Return tt
    /\ addr r.2 = device_addr
    /\ log r.2 = [SockStream; SockSetTimeout; SockConnect device_addr;
                  PrintClearing; SockRecv; PrintCleared (read_value (next_in LE w))]
    /\ wire r.2 = tail w
    /\ buffer r.2 = option_list (stored_line (next_in LE w)).
Proof.
  intros Hr. rewrite network_init_eq. cbv zeta. rewrite Hr, clear_buffer_eq.
  eexists. split; [reflexivity|]. cbn [fst snd]. repeat split.
  unfold buffer at 1. cbn [store data logged].
  change (default [] (store ?s !! data ?s)) with (buffer s).
  rewrite absorb_buffer. unfold buffer. cbn [store data logged].
  rewrite lookup_singleton_eq. reflexivity.
Qed.

(** X23: when the configured address refuses the connection, the
    constructor goes by the search: while that polls the constructor is
    not done; when it fails the constructor raises its error with the
    configured address kept and nothing read; when it returns an
    address the constructor connects there, whatever device answered,
    and raises the error of that connection if it is refused too. *)
Theorem network_init_follows_the_search (device_addr : str)
    (reach : str -> option exn) (e : exn) (starttime : Q) (script : list poll)
    (w : list incoming) :
  reach device_addr = Some e ->
  let r := SQMLE.__init__ device_addr reach starttime script (unbuilt w) in
  match SQMLE._search starttime script with
  | Unfinished => r = None
  | Finished (Raise e') _ =>
    exists st, r = Some (Raise e', st) /\ addr st = device_addr /\ wire st = w
               /\ count is_read (log st) = 0%nat
  | Finished (Return found_addr) _ =>
    exists x, r = Some x /\ addr x.2 = found_addr
      /\ count is_open (log x.2) = 2%nat
      /\ x.1 = match reach found_addr with
               | None => Return tt
               | Some e2 => Raise e2
               end
  end.
Proof.
  intros Hr. cbv zeta. rewrite network_init_eq. cbv zeta. rewrite Hr.
  destruct (SQMLE._search starttime script) as [[found_addr|e'] printed|].
  - destruct (reach found_addr) as [e2|].
    + eexists. split; [reflexivity|]. repeat split.
    + rewrite clear_buffer_eq. eexists. split; [reflexivity|]. repeat split.
  - eexists. split; [reflexivity|]. repeat split.
  - reflexivity.
Qed.

End constructors.

Lemma serial_init_at_configured_address_witness :
  let cfg := with_utf8 false in
  let r := SQMLU.__init__ (lit "COM7") (lit "win32") (only_port (lit "COM7"))
             (unbuilt [Gives reading]) in
  r.1 = Return tt
  /\ addr r.2 = lit "COM7"
  /\ log r.2 = [SerialOpen (lit "COM7"); PrintClearing; SerialReadline;
                PrintCleared (read_value (next_in LU [Gives reading]))]
  /\ wire r.2 = []
  /\ buffer r.2 = option_list (stored_line (next_in LU [Gives reading])).
Proof.
  apply (serial_init_at_configured_address (cfg := with_utf8 false) (lit "COM7")
           (lit "win32") (only_port (lit "COM7")) (blit "iXYZ") [Gives reading]).
  reflexivity.
Defined.


Lemma serial_init_fails_with_the_search_witness :
  let cfg := with_utf8 false in
  let r := SQMLU.__init__ (lit "/dev/ttyACM0") (lit "linux") (only_port (lit "COM1"))
             (unbuilt [Gives reading]) in
  r.1 = Raise AssertionError
  /\ addr r.2 = lit "/dev/ttyACM0"
  /\ log r.2 = SerialOpen (lit "/dev/ttyACM0")
                 :: (SQMLU._search (lit "linux") (only_port (lit "COM1"))).2
  /\ wire r.2 = [Gives reading]
  /\ buffer r.2 = [].
Proof.
  apply (serial_init_fails_with_the_search (cfg := with_utf8 false) (lit "/dev/ttyACM0")
           (lit "linux") (only_port (lit "COM1")) SerialException AssertionError
           [Gives reading]); reflexivity.
Defined.

Lemma network_init_at_configured_address_witness :
  let cfg := with_utf8 false in
  exists r,
    SQMLE.__init__ (lit "10.0.0.5") (only_host (lit "10.0.0.5")) 0 [] (unbuilt [Gives reading])
    = Some r
    /\ r.1 = Return tt
    /\ addr r.2 = lit "10.0.0.5"
    /\ log r.2 = [SockStream; SockSetTimeout; SockConnect (lit "10.0.0.5");
                  PrintClearing; SockRecv;
                  PrintCleared (read_value (next_in LE [Gives reading]))]
    /\ wire r.2 = []
    /\ buffer r.2 = option_list (stored_line (next_in LE [Gives reading])).
Proof.
  apply (network_init_at_configured_address (cfg := with_utf8 false) (lit "10.0.0.5")
           (only_host (lit "10.0.0.5")) 0 [] [Gives reading]).
  reflexivity.
Defined.

Lemma network_init_follows_the_search_witness :
  let cfg := with_utf8 false in
  exists x,
    SQMLE.__init__ (lit "10.0.0.5") (only_host (lit "10.0.0.7")) 0 two_replies
      (unbuilt [Gives reading]) = Some x
    /\ addr x.2 = lit "10.0.0.9"
    /\ count is_open (log x.2) = 2%nat
    /\ x.1 = Raise TimeoutError.
Proof.
  apply (network_init_follows_the_search (cfg := with_utf8 false) (lit "10.0.0.5")
           (only_host (lit "10.0.0.7")) TimeoutError 0 two_replies [Gives reading]).
  reflexivity.
Defined.

(* ------------------------------------------------------------------ *)
(** * The exchange on a transport whose open and send can raise *)

Section faults.
Context {cfg : configs_ssh}.
Variables (k : kind) (reach : str -> option exn) (sends : bytes -> option exn).

Lemma faulty_read st :
  SQM._read_buffer (transport := faulty k reach sends) st
  = SQM._read_buffer (transport := self k) st.
Proof. destruct k; reflexivity. Qed.

Lemma faulty_close st :
  SQM._close_connection (transport := faulty k reach sends) st
  = SQM._close_connection (transport := self k) st.
Proof. destruct k; reflexivity. Qed.

Lemma faulty_start st :
  SQM.start_connection (transport := faulty k reach sends) st
  = (outcome (reach (addr st)), logged (open_ops k (addr st)) st).
Proof.
  destruct k; cbn; unfold SQMLE.start_connection_via, SQMLU.start_connection_in,
    ports_of, mbind, M_bind, call, self_addr, raise, mret, M_ret; cbn;
    destruct (reach (addr st)); cbn; rewrite ?logged_logged; reflexivity.
Qed.

Lemma faulty_send s st :
  SQM._send_command (transport := faulty k reach sends) s st
  = match encode utf8 s with
    | Raise e => (Raise e, st)
    | Return b => (outcome (sends b), logged [write_op k b] st)
    end.
Proof.
  destruct k; cbn; unfold SQMLE._send_command_via, SQMLU._send_command_in,
    mbind, M_bind, lift, call, raise, mret, M_ret;
    destruct (encode utf8 s) as [b|e]; try reflexivity;
    destruct (sends b); reflexivity.
Qed.

Lemma faulty_reset st :
  SQM._reset_device (T := faulty k reach sends) st
  = (outcome (reach (addr st)), reset k st).
Proof.
  unfold SQM._reset_device, mbind, M_bind.
  rewrite faulty_close, close_connection_eq. unfold sleep, call.
  rewrite faulty_start. unfold reset. cbn [addr logged].
  rewrite hear_out_addr, !logged_logged. cbn [addr logged].
  destruct (reach (addr st)); reflexivity.
Qed.

Lemma sanity_check_passes (i : incoming) (t : str) (st : session) :
  payload_text i = Some t ->
  (m ← assert_not_none (read_value i) ; lift (decode utf8 m)) st = (Return t, st).
Proof.
  unfold mbind, M_bind, assert_not_none, lift.
  destruct i as [e|p]; cbn; [discriminate|].
  destruct (decode utf8 p) as [t'|e] eqn:E; cbn; [|discriminate].
  destruct (decide (t' = [])); [discriminate|]. cbn. rewrite E. congruence.
Qed.

Lemma again_addr b st : addr (again k b st) = addr st.
Proof. unfold again, reset. cbn [addr logged]. rewrite hear_out_addr. reflexivity. Qed.

(** One step of the exchange on the transport that can fail. *)
Lemma faulty_exchange s tries st :
  SQM.send_and_receive (T := faulty k reach sends) s tries st
  = match encode utf8 s with
    | Raise e => (Raise e, st)
    | Return b =>
      match sends b with
      | Some e => (Raise e, logged [write_op k b] st)
      | None =>
        let i := next_in k (wire st) in
        match payload_text i with
        | Some t => (Return t, attempt k b st)
        | None =>
          match Z_le_gt_dec tries 0 with
          | left _ =>
            (if DEBUG then Raise (attempt_error i) else Return [],
             logged [PrintErrReading (read_value i)] (attempt k b st))
          | right _ =>
            match reach (addr st) with
            | Some e => (Raise e, reset k (logged [Sleep mid_s] (attempt k b st)))
            | None =>
              match SQM.send_and_receive (T := faulty k reach sends) s (tries - 1)
                      (again k b st) with
              | (Return m, st') => (Return m, logged [PrintSensorInfo m] st')
              | (Raise e, st') => (Raise e, st')
              end
            end
          end
        end
      end
    end.
Proof.
  rewrite SQM.send_and_receive_equation_1.
  unfold mbind at 1, M_bind at 1. rewrite faulty_send.
  destruct (encode utf8 s) as [b|e]; [|reflexivity].
  destruct (sends b) as [e|]; [reflexivity|]. cbn [outcome].
  unfold mbind at 1, M_bind at 1, sleep, call.
  unfold mbind at 1, M_bind at 1. rewrite faulty_read, read_buffer_eq, !logged_logged.
  cbn [app wire logged]. fold (attempt k b st). cbv zeta. unfold try_except.
  destruct (payload_text (next_in k (wire st))) as [t|] eqn:Ht.
  { rewrite (sanity_check_passes _ t) by assumption. reflexivity. }
  rewrite sanity_check_fails by assumption.
  destruct (Z_le_gt_dec tries 0).
  { unfold mbind, M_bind, call, raise, mret, M_ret. destruct DEBUG; reflexivity. }
  unfold mbind at 1, M_bind at 1.
  unfold mbind at 1, M_bind at 1. rewrite faulty_reset. cbn [addr logged attempt absorb].
  destruct (reach (addr st)) as [e|]; [reflexivity|]. cbn [outcome].
  unfold mbind at 1, M_bind at 1. fold (again k b st). unfold mbind, M_bind.
  destruct (SQM.send_and_receive s (tries - 1) (again k b st)) as [[m|e] st']; reflexivity.
Qed.

(** X4: with [DEBUG] unset, [send_and_receive] of a command that encodes
    raises no error of a read, be it a failed, an empty or an
    undecodable one: an error it raises is the error of a send, or the
    error of the reopen of a retry, which the handler does not guard;
    when sends and reopens go through it returns a text. *)
Theorem send_and_receive_raises_only_on_io (s : str) (b : bytes) (tries : Z)
    (st : session) :
  DEBUG = false ->
  encode utf8 s = Return b ->
  let r := SQM.send_and_receive (T := faulty k reach sends) s tries st in
  (forall e, r.1 = Raise e ->
     sends b = Some e \/ (0 < tries /\ reach (addr st) = Some e))
  /\ (sends b = None -> reach (addr st) = None -> exists t, r.1 = Return t).
Proof.
  intros Hd Hs. cbv zeta.
  assert (H1 : forall e, (SQM.send_and_receive (T := faulty k reach sends) s tries st).1
                         = Raise e ->
                 sends b = Some e \/ (0 < tries /\ reach (addr st) = Some e)).
  { remember (Z.to_nat tries) as n eqn:En. revert tries En st.
    induction n as [n IH] using lt_wf_ind. intros tries En st e.
    rewrite faulty_exchange, Hs. cbv zeta.
    destruct (sends b) as [e0|] eqn:Hb; [cbn; intros [= ->]; by left|].
    destruct (payload_text (next_in k (wire st))); [discriminate|].
    destruct (Z_le_gt_dec tries 0) as [Hle|Hgt]; [rewrite Hd; discriminate|].
    destruct (reach (addr st)) as [e1|] eqn:Hr; [cbn; intros [= ->]; right; split; [lia | reflexivity]|].
    specialize (IH (Z.to_nat (tries - 1)) ltac:(lia) (tries - 1) eq_refl (again k b st) e).
    rewrite again_addr, Hr in IH.
    destruct (SQM.send_and_receive s (tries - 1) (again k b st)) as [[m|x] st'];
      cbn [fst] in *; [discriminate|].
    intros [= ->]. destruct (IH eq_refl) as [Hx|[_ Hx]]; [by left | discriminate]. }
  split; [exact H1|].
  intros Hb Hr.
  destruct (SQM.send_and_receive s tries st).1 as [t|e] eqn:E; [eauto|].
  destruct (H1 e eq_refl) as [Hx|[_ Hx]]; congruence.
Qed.

(** X8: [_reset_device] reconnects to the address the session already
    has: after the reads of teardown come one close, the short delay
    and the open of the same address, in this order, and what the
    device still sent before it went quiet is in the buffer; it raises
    when that open raises, with its error, and otherwise returns. *)
Theorem reset_device_reconnects (st : session) :
  let r := SQM._reset_device (T := faulty k reach sends) st in
  let heard := teardown_reads k (wire st) in
  r.1 = outcome (reach (addr st))
  /\ addr r.2 = addr st
  /\ log r.2 = log st ++ linger_ops k ++ replicate (length heard) (read_op k)
                 ++ [close_op k; Sleep short_s] ++ open_ops k (addr st)
  /\ wire r.2 = teardown_rest (wire st)
  /\ buffer r.2 = buffer st ++ omap stored_line heard.
Proof.
  cbv zeta. rewrite faulty_reset. cbn [fst snd]. unfold reset.
  split; [reflexivity|]. split.
  { cbn [addr logged]. rewrite hear_out_addr. reflexivity. }
  split.
  { cbn [log logged]. rewrite hear_out_log. cbn [log logged].
    rewrite <- !app_assoc. reflexivity. }
  split.
  { cbn [wire logged]. rewrite hear_out_wire by reflexivity. reflexivity. }
  unfold buffer at 1. cbn [store data logged].
  change (default [] (store ?s !! data ?s)) with (buffer s).
  rewrite hear_out_buffer. reflexivity.
Qed.

End faults.

(** With every open and every send going through, the transport that
    can fail is the transport of the claims. *)
Lemma faulty_without_faults {cfg : configs_ssh} (k : kind) (s : str) (tries : Z)
    (st : session) :
  SQM.send_and_receive (T := faulty k (fun _ => None) (fun _ => None)) s tries st
  = SQM.send_and_receive (T := self k) s tries st.
Proof.
  remember (Z.to_nat tries) as n eqn:En. revert tries En st.
  induction n as [n IH] using lt_wf_ind. intros tries En st.
  rewrite faulty_exchange. cbv zeta.
  destruct (encode utf8 s) as [b|e] eqn:Hs.
  - destruct (payload_text (next_in k (wire st))) as [t|] eqn:Ht.
    + rewrite (send_and_receive_success k s b tries t) by assumption. reflexivity.
    + destruct (Z_le_gt_dec tries 0) as [Hle|Hgt].
      * rewrite (send_and_receive_terminal k s b) by assumption. reflexivity.
      * rewrite (send_and_receive_retry k s b) by (assumption || lia).
        rewrite (IH (Z.to_nat (tries - 1))) by (lia || reflexivity). reflexivity.
  - rewrite SQM.send_and_receive_equation_1, exchange_prefix, Hs. reflexivity.
Qed.

(** The reads fail and the reopen of the retry is refused: the call
    raises the error of the reopen, [DEBUG] unset. *)
Lemma send_and_receive_raises_only_on_io_witness :
  let cfg := with_utf8 false in
  let st := session_on [] [Fails TimeoutError] in
  let r := SQM.send_and_receive (T := faulty LE unreachable sendable) (lit "rx") 1 st in
  r.1 = Raise TimeoutError
  /\ (forall e, r.1 = Raise e ->
        sendable (blit "rx") = Some e \/ (0 < 1 /\ unreachable (addr st) = Some e))
  /\ (sendable (blit "rx") = None -> unreachable (addr st) = None ->
      exists t, r.1 = Return t).
Proof.
  cbv zeta. split; [reflexivity|].
  apply (send_and_receive_raises_only_on_io (cfg := with_utf8 false) LE unreachable sendable
           (lit "rx") (blit "rx") 1 (session_on [] [Fails TimeoutError])); reflexivity.
Defined.
